(** * Fractal tree generator: geometry builder, sway, colours and frame loop

    A shallow embedding of [src/App.tsx] and the properties of its
    segment builder, colour resolver, sway transform, frame renderer and
    animation driver.

    Numbers.  Every TypeScript [number] of the component is read as a real
    number: [Math.sin], [Math.cos], [Math.sqrt] and [Math.PI] are the
    functions and the constant of the real line, comparisons are the order
    of the reals.  Rounding of binary64 arithmetic, signed zeros, NaN and
    the infinities are outside this reading.  In particular a division by
    zero is not given a meaning here: a statement whose truth depends on
    the value of a quotient carries the hypothesis that the divisor is
    not zero, and the others hold of the quotient whatever its value.

    State.  The component's [useRef] cells, the canvas behind [canvasRef]
    and the host (the sequence [Math.random] will return, the next
    animation-frame handle, the downloads triggered) are fields of one
    record that every function takes and returns.  [settings] and [bg],
    which the functions of the component close over, are parameters. *)

From Stdlib Require Import Reals Lra Lia ZArith List String Bool.
From Equations Require Import Equations.
Import ListNotations.

Local Open Scope R_scope.

(* ------------------------------------------------------------------ *)
(** ** Types of the component *)

Inductive ThemeBG : Type := night | sunset | snow.

Inductive ColorPreset : Type := spring | autumn | winter | neon.

Record Settings : Type := mkSettings {
  depth : R;
  angle : R;
  length : R;
  shrink : R;
  thickness : R;
  randomness : R;
  leafMode : bool;
  animateWind : bool;
  windStrength : R;
  windSpeed : R;
  growAnimation : bool;
  growSpeed : R;
  preset : ColorPreset
}.

Record Segment : Type := mkSegment {
  x1 : R;
  y1 : R;
  x2 : R;
  y2 : R;
  thick : R;
  depthLeft : R;
  totalDepth : R
}.

(** [clamp(n, min, max) = Math.max(min, Math.min(max, n))]. *)
Definition clamp (n min max : R) : R := Rmax min (Rmin max n).

(** The initial value of [useState<Settings>]. *)
Definition initialSettings : Settings :=
  {| depth := 11; angle := 25; length := 150; shrink := 67 / 100;
     thickness := 10; randomness := 2; leafMode := true;
     animateWind := true; windStrength := 4; windSpeed := 12 / 10;
     growAnimation := true; growSpeed := 80; preset := spring |}.

(* ------------------------------------------------------------------ *)
(** ** Host functions *)

(** [Math.atan2(y, x)] on the reals. *)
Definition Math_atan2 (y x : R) : R :=
  match total_order_T x 0 with
  | inleft (left _) =>            (* x < 0 *)
      if Rlt_dec y 0 then atan (y / x) - PI else atan (y / x) + PI
  | inleft (right _) =>           (* x = 0 *)
      match total_order_T y 0 with
      | inleft (left _) => - (PI / 2)
      | inleft (right _) => 0
      | inright _ => PI / 2
      end
  | inright _ => atan (y / x)     (* 0 < x *)
  end.

(* ------------------------------------------------------------------ *)
(** ** Colour presets and the colour of a segment *)

Record Palette : Type := mkPalette {
  trunk : string;
  branch : string;
  leaf : string;
  glow : bool
}.

Definition presetColors (p : ColorPreset) : Palette :=
  match p with
  | spring =>
      {| trunk := "#a16207"; branch := "#16a34a"; leaf := "#22c55e";
         glow := false |}
  | autumn =>
      {| trunk := "#92400e"; branch := "#ea580c"; leaf := "#f59e0b";
         glow := false |}
  | winter =>
      {| trunk := "#6b7280"; branch := "#94a3b8"; leaf := "#e5e7eb";
         glow := false |}
  | neon =>
      {| trunk := "#a855f7"; branch := "#22d3ee"; leaf := "#f472b6";
         glow := true |}
  end.

Definition branchColor (settings : Settings) (depthLeft totalDepth : R)
  : string :=
  let ratio := depthLeft / totalDepth in
  let c := presetColors (preset settings) in
  if negb (leafMode settings) then branch c
  else if Rgt_dec ratio (55 / 100) then trunk c
  else if Rgt_dec ratio (25 / 100) then branch c
  else leaf c.

(** The colour as the specification words it: a function of the ratio,
    the leaf-mode flag and the preset. *)
Definition colorOfRatio (ratio : R) (leafMode : bool) (p : ColorPreset)
  : string :=
  if leafMode then
    if Rgt_dec ratio (55 / 100) then trunk (presetColors p)
    else if Rgt_dec ratio (25 / 100) then branch (presetColors p)
    else leaf (presetColors p)
  else branch (presetColors p).

(* ------------------------------------------------------------------ *)
(** ** Wind sway *)

(** [getWindAngle]; [t] is [windTimeRef.current]. *)
Definition getWindAngle (settings : Settings) (t : R)
  (depthLeft totalDepth : R) : R :=
  if negb (animateWind settings) then 0
  else
    let leafFactor := 1 - depthLeft / totalDepth in
    let sway := windStrength settings * leafFactor in
    sin t * sway.

(* ------------------------------------------------------------------ *)
(** ** The segment builder *)

(** Number of recursion levels left below a node: the measure on which
    [collect] recurses. *)
Definition levels (depthLeft : R) : nat := Z.to_nat (up depthLeft).

(** The measure decreases at a recursive call: [levels (d - 1)] is below
    [levels d] when [d] is positive. *)
Ltac levels_decrease :=
  match goal with
  | Hd : ~ ?d <= 0 |- (levels (?d - 1) < levels ?d)%nat =>
      unfold levels;
      replace (up (d - 1)) with (up d - 1)%Z
        by (apply tech_up; rewrite minus_IZR; destruct (archimed d); lra);
      assert (0 < up d)%Z by (apply lt_IZR; destruct (archimed d); lra);
      lia
  end.

Section Builder.

(** The settings the builder closes over, and the sequence of values
    that successive calls of [Math.random] return. *)
Variable settings : Settings.
Variable random : nat -> R.

(** [collect]; [k] counts the calls of [Math.random] made so far.  The
    result is the list of segments pushed on [segmentsRef.current], in
    the order of the pushes, and the count afterwards. *)
Equations? collect (x y len angleDeg dLeft th : R) (k : nat)
  : list Segment * nat by wf (levels dLeft) lt :=
collect x y len angleDeg dLeft th k with Rle_dec dLeft 0 := {
  | left _ => ([], k)
  | right Hd with Rlt_dec len 2 := {
    | left _ => ([], k)
    | right _ =>
        let randomAngle := (random k * 2 - 1) * randomness settings in
        let a := (angleDeg + randomAngle) * PI / 180 in
        let x2 := x + len * cos a in
        let y2 := y - len * sin a in
        let s := {| x1 := x; y1 := y; x2 := x2; y2 := y2; thick := th;
                    depthLeft := dLeft;
                    totalDepth := depth settings |} in
        let newLen := len * shrink settings in
        let newThick := th * (75 / 100) in
        let l := collect x2 y2 newLen (angleDeg - angle settings)
                   (dLeft - 1) newThick (S k) in
        let r := collect x2 y2 newLen (angleDeg + angle settings)
                   (dLeft - 1) newThick (snd l) in
        (s :: fst l ++ fst r, snd r) } }.
Proof.
  all: levels_decrease.
Qed.

End Builder.


(* ------------------------------------------------------------------ *)
(** ** The canvas and the state of the component *)

(** What a frame paints.  A stroke or a fill is recorded with the style
    it was painted with. *)
Inductive DrawOp : Type :=
  | ClearRect (x y w h : R)
  | FillGradient (stop0 stop1 : string) (x y w h : R)
  | FillCircle (x y r : R) (fillStyle : string) (globalAlpha : R)
  | StrokeLine (x1 y1 x2 y2 : R) (strokeStyle : string) (lineWidth : R).

(** The 2D context: the shadow settings, which persist from one frame to
    the next, and everything painted so far, oldest first. *)
Record Context2D : Type := mkContext {
  shadowBlur : R;
  shadowColor : string;
  painted : list DrawOp
}.

(** The canvas element; [context2d] is what [getContext("2d")] returns,
    [None] for [null]. *)
Record Canvas : Type := mkCanvas {
  width : R;
  height : R;
  context2d : option Context2D
}.

Record AppState : Type := mkState {
  canvasRef : option Canvas;
  windTimeRef : R;
  segmentsRef : list Segment;
  growIndexRef : R;
  rafRef : option positive;
  (* the host *)
  randomCalls : nat;          (* calls of Math.random made so far *)
  nextFrame : positive;       (* handle requestAnimationFrame returns next *)
  pendingFrames : list positive; (* callbacks registered and not cancelled *)
  downloads : list string     (* files the page has offered for download *)
}.

Definition setContext (cv : Canvas) (ctx : Context2D) : Canvas :=
  {| width := width cv; height := height cv; context2d := Some ctx |}.

Section Component.

Variable settings : Settings.
Variable bg : ThemeBG.
Variable random : nat -> R.

(** [buildSegments]. *)
Definition buildSegments (st : AppState) : AppState :=
  match canvasRef st with
  | None => st
  | Some canvas =>
      match context2d canvas with
      | None => st
      | Some _ =>
          let w := width canvas in
          let h := height canvas in
          let startX := w / 2 in
          let startY := h - 20 in
          let r := collect settings random startX startY
                     (length settings) 90 (depth settings)
                     (thickness settings) (randomCalls st) in
          {| canvasRef := canvasRef st;
             windTimeRef := windTimeRef st;
             segmentsRef := fst r;
             growIndexRef := 0;
             rafRef := rafRef st;
             randomCalls := snd r;
             nextFrame := nextFrame st;
             pendingFrames := pendingFrames st;
             downloads := downloads st |}
      end
  end.

(** The dots of [drawBackground]: [n] iterations left, [k] calls of
    [Math.random] made so far; three calls for each dot. *)
Fixpoint drawDots (n : nat) (w h alpha : R) (k : nat) : list DrawOp :=
  match n with
  | O => []
  | S n' =>
      let x := random k * w in
      let y := random (k + 1) * h in
      let r := random (k + 2) * (15 / 10) + 2 / 10 in
      FillCircle x y r "#ffffff" alpha :: drawDots n' w h alpha (k + 3)
  end.

Definition drawBackground (w h : R) (k : nat) : list DrawOp * nat :=
  let grad :=
    match bg with
    | night => FillGradient "#050816" "#0b1020" 0 0 w h
    | sunset => FillGradient "#2a0a3d" "#13061f" 0 0 w h
    | snow => FillGradient "#0a1222" "#06101e" 0 0 w h
    end in
  let dots := 120%nat in
  let alpha := match bg with snow => 35 / 100 | _ => 25 / 100 end in
  (grad :: drawDots dots w h alpha k, (k + 3 * dots)%nat).

(** The end point a segment is drawn to at wind time [t]: the stored
    end point turned about the start point by the sway angle. *)
Definition renderedEnd (t : R) (s : Segment) : R * R :=
  let wind := getWindAngle settings t (depthLeft s) (totalDepth s) in
  let dx := x2 s - x1 s in
  let dy := y2 s - y1 s in
  let baseAngle := Math_atan2 (- dy) dx in
  let len := sqrt (dx * dx + dy * dy) in
  let newAngle := baseAngle + wind * PI / 180 in
  (x1 s + len * cos newAngle, y1 s - len * sin newAngle).

(** The body of the loop of [drawSegmentsFrame] for one segment. *)
Definition drawSegment (t : R) (s : Segment) : list DrawOp :=
  let c := presetColors (preset settings) in
  let e := renderedEnd t s in
  StrokeLine (x1 s) (y1 s) (fst e) (snd e)
    (branchColor settings (depthLeft s) (totalDepth s)) (thick s)
  :: (if leafMode settings && (if Rle_dec (depthLeft s) 2 then true
                               else false)
      then [FillCircle (fst e) (snd e)
              (clamp (thick s * (55 / 100)) (12 / 10) 5) (leaf c)
              (85 / 100)]
      else []).

(** [for (let i = 0; i < limit; i++) { const s = segs[i]; ... }], from
    index [i] on, [segs] being the segments from that index.  [limit]
    never exceeds [segs.length], so the loop has ended by the time the
    list is exhausted. *)
Fixpoint drawLoop (t limit : R) (i : nat) (segs : list Segment)
  : list DrawOp :=
  match segs with
  | [] => []
  | s :: rest =>
      if Rlt_dec (INR i) limit
      then drawSegment t s ++ drawLoop t limit (S i) rest
      else []
  end.

(** The reveal limit of a frame. *)
Definition revealLimit (growIndex : R) (segs : list Segment) : R :=
  let total := INR (List.length segs) in
  if growAnimation settings then clamp growIndex 0 total else total.

(** The counter after a frame: the last statement of
    [drawSegmentsFrame]. *)
Definition advanceGrow (growIndex : R) (segs : list Segment) : R :=
  let total := INR (List.length segs) in
  if growAnimation settings && (if Rlt_dec growIndex total then true
                                else false)
  then growIndex + growSpeed settings
  else growIndex.

(** [drawSegmentsFrame(ctx, w, h)]: the context and the state after. *)
Definition drawSegmentsFrame (ctx : Context2D) (w h : R) (st : AppState)
  : Context2D * AppState :=
  let back := drawBackground w h (randomCalls st) in
  let c := presetColors (preset settings) in
  let segs := segmentsRef st in
  let limit := revealLimit (growIndexRef st) segs in
  let ops := ClearRect 0 0 w h :: fst back
             ++ drawLoop (windTimeRef st) limit 0 segs in
  ({| shadowBlur := if glow c then 18 else 0;
      shadowColor := if glow c then leaf c else "transparent";
      painted := painted ctx ++ ops |},
   {| canvasRef := canvasRef st;
      windTimeRef := windTimeRef st;
      segmentsRef := segs;
      growIndexRef := advanceGrow (growIndexRef st) segs;
      rafRef := rafRef st;
      randomCalls := snd back;
      nextFrame := nextFrame st;
      pendingFrames := pendingFrames st;
      downloads := downloads st |}).

(** The frame is drawn through the context of the canvas of the state:
    the drawn context is stored back in it. *)
Definition drawOnCanvas (canvas : Canvas) (ctx : Context2D)
  (st : AppState) : AppState :=
  let r := drawSegmentsFrame ctx (width canvas) (height canvas) st in
  {| canvasRef := Some (setContext canvas (fst r));
     windTimeRef := windTimeRef (snd r);
     segmentsRef := segmentsRef (snd r);
     growIndexRef := growIndexRef (snd r);
     rafRef := rafRef (snd r);
     randomCalls := randomCalls (snd r);
     nextFrame := nextFrame (snd r);
     pendingFrames := pendingFrames (snd r);
     downloads := downloads (snd r) |}.

End Component.

Arguments drawDots : simpl never.
Arguments drawBackground : simpl never.

(* ------------------------------------------------------------------ *)
(** ** The animation driver *)

(** [requestAnimationFrame]: the handle returned and the host after. *)
Definition requestAnimationFrame (st : AppState) : positive * AppState :=
  (nextFrame st,
   {| canvasRef := canvasRef st;
      windTimeRef := windTimeRef st;
      segmentsRef := segmentsRef st;
      growIndexRef := growIndexRef st;
      rafRef := rafRef st;
      randomCalls := randomCalls st;
      nextFrame := Pos.succ (nextFrame st);
      pendingFrames := nextFrame st :: pendingFrames st;
      downloads := downloads st |}).

Definition cancelAnimationFrame (h : positive) (st : AppState) : AppState :=
  {| canvasRef := canvasRef st;
     windTimeRef := windTimeRef st;
     segmentsRef := segmentsRef st;
     growIndexRef := growIndexRef st;
     rafRef := rafRef st;
     randomCalls := randomCalls st;
     nextFrame := nextFrame st;
     pendingFrames := List.remove Pos.eq_dec h (pendingFrames st);
     downloads := downloads st |}.

Definition setRaf (r : option positive) (st : AppState) : AppState :=
  {| canvasRef := canvasRef st;
     windTimeRef := windTimeRef st;
     segmentsRef := segmentsRef st;
     growIndexRef := growIndexRef st;
     rafRef := r;
     randomCalls := randomCalls st;
     nextFrame := nextFrame st;
     pendingFrames := pendingFrames st;
     downloads := downloads st |}.

Definition setWindTime (t : R) (st : AppState) : AppState :=
  {| canvasRef := canvasRef st;
     windTimeRef := t;
     segmentsRef := segmentsRef st;
     growIndexRef := growIndexRef st;
     rafRef := rafRef st;
     randomCalls := randomCalls st;
     nextFrame := nextFrame st;
     pendingFrames := pendingFrames st;
     downloads := downloads st |}.

Definition setGrowIndex (g : R) (st : AppState) : AppState :=
  {| canvasRef := canvasRef st;
     windTimeRef := windTimeRef st;
     segmentsRef := segmentsRef st;
     growIndexRef := g;
     rafRef := rafRef st;
     randomCalls := randomCalls st;
     nextFrame := nextFrame st;
     pendingFrames := pendingFrames st;
     downloads := downloads st |}.

(** [stopLoop].  A handle is a positive number, so [if (rafRef.current)]
    tests that there is one. *)
Definition stopLoop (st : AppState) : AppState :=
  match rafRef st with
  | Some h => setRaf None (cancelAnimationFrame h st)
  | None => st
  end.

Section Driver.

Variable settings : Settings.
Variable bg : ThemeBG.
Variable random : nat -> R.

(** The callback [tick] of [startLoop].  It is only ever registered
    when the canvas and its context exist, and draws through them. *)
Definition tick (st : AppState) : AppState :=
  let st1 := setWindTime (windTimeRef st + 2 / 100 * windSpeed settings)
               st in
  let st2 :=
    match canvasRef st1 with
    | Some canvas =>
        match context2d canvas with
        | Some ctx => drawOnCanvas settings bg random canvas ctx st1
        | None => st1
        end
    | None => st1
    end in
  let r := requestAnimationFrame st2 in
  setRaf (Some (fst r)) (snd r).

(** [startLoop]. *)
Definition startLoop (st : AppState) : AppState :=
  let st1 := stopLoop st in
  match canvasRef st1 with
  | None => st1
  | Some canvas =>
      match context2d canvas with
      | None => st1
      | Some _ =>
          let r := requestAnimationFrame st1 in
          setRaf (Some (fst r)) (snd r)
      end
  end.

(** The host runs the callback registered under handle [h], if it has
    not been cancelled. *)
Definition runFrame (h : positive) (st : AppState) : AppState :=
  if in_dec Pos.eq_dec h (pendingFrames st)
  then tick (cancelAnimationFrame h st)
  else st.

(** [drawTreeOnce]. *)
Definition drawTreeOnce (st : AppState) : AppState :=
  let st1 := buildSegments settings random st in
  match canvasRef st1 with
  | None => st1
  | Some canvas =>
      match context2d canvas with
      | None => st1
      | Some ctx =>
          let st2 :=
            setGrowIndex (INR (List.length (segmentsRef st1))) st1 in
          drawOnCanvas settings bg random canvas ctx st2
      end
  end.

End Driver.

(** [downloadPNG]. *)
Definition downloadPNG (st : AppState) : AppState :=
  match canvasRef st with
  | None => st
  | Some _ =>
      {| canvasRef := canvasRef st;
         windTimeRef := windTimeRef st;
         segmentsRef := segmentsRef st;
         growIndexRef := growIndexRef st;
         rafRef := rafRef st;
         randomCalls := randomCalls st;
         nextFrame := nextFrame st;
         pendingFrames := pendingFrames st;
         downloads := downloads st ++ ["fractal-tree.png"%string] |}
  end.

(* ------------------------------------------------------------------ *)
(** ** The two effects of the component *)

Definition ColorPreset_eqb (p q : ColorPreset) : bool :=
  match p, q with
  | spring, spring | autumn, autumn | winter, winter | neon, neon => true
  | _, _ => false
  end.

Definition ThemeBG_eqb (p q : ThemeBG) : bool :=
  match p, q with
  | night, night | sunset, sunset | snow, snow => true
  | _, _ => false
  end.

Definition number_eqb (a b : R) : bool :=
  if Req_dec_T a b then true else false.

(** The dependency list of the effect that rebuilds the segments. *)
Definition shapeDepsSame (old new : Settings) : bool :=
  number_eqb (depth old) (depth new)
  && number_eqb (angle old) (angle new)
  && number_eqb (length old) (length new)
  && number_eqb (shrink old) (shrink new)
  && number_eqb (thickness old) (thickness new)
  && number_eqb (randomness old) (randomness new).

(** The dependency list of the effect that runs the animation loop. *)
Definition loopDepsSame (old new : Settings) (oldBg newBg : ThemeBG)
  : bool :=
  Bool.eqb (animateWind old) (animateWind new)
  && number_eqb (windStrength old) (windStrength new)
  && number_eqb (windSpeed old) (windSpeed new)
  && Bool.eqb (growAnimation old) (growAnimation new)
  && number_eqb (growSpeed old) (growSpeed new)
  && Bool.eqb (leafMode old) (leafMode new)
  && ColorPreset_eqb (preset old) (preset new)
  && ThemeBG_eqb oldBg newBg.

(** The effects run after the first render: both of them. *)
Definition mountEffects (settings : Settings) (random : nat -> R)
  (st : AppState) : AppState :=
  startLoop (buildSegments settings random st).

(** The effects run after a render in which the settings went from [old]
    to [new] and the theme from [oldBg] to [newBg]: the cleanup of the
    loop effect, then each effect one of whose dependencies changed, in
    the order of their declaration. *)
Definition updateEffects (old new : Settings) (oldBg newBg : ThemeBG)
  (random : nat -> R) (st : AppState) : AppState :=
  let loopSame := loopDepsSame old new oldBg newBg in
  let st1 := if loopSame then st else stopLoop st in
  let st2 := if shapeDepsSame old new then st1
             else buildSegments new random st1 in
  if loopSame then st2 else startLoop st2.

(** [update(key, value)] for the key [windStrength]. *)
Definition updateWindStrength (value : R) (prev : Settings) : Settings :=
  {| depth := depth prev; angle := angle prev; length := length prev;
     shrink := shrink prev; thickness := thickness prev;
     randomness := randomness prev; leafMode := leafMode prev;
     animateWind := animateWind prev; windStrength := value;
     windSpeed := windSpeed prev; growAnimation := growAnimation prev;
     growSpeed := growSpeed prev; preset := preset prev |}.

(** [n] frames of the loop, one after the other. *)
Definition frames (settings : Settings) (bg : ThemeBG) (random : nat -> R)
  (n : nat) (st : AppState) : AppState :=
  Nat.iter n (tick settings bg random) st.

(* ------------------------------------------------------------------ *)
(** ** Readings of the builder used to state its properties *)

(** [collect] with a bound on the depth of the call stack: [None] when a
    call would be nested deeper than [fuel] calls. *)
Fixpoint collectFuel (settings : Settings) (random : nat -> R) (fuel : nat)
  (x y len angleDeg dLeft th : R) (k : nat) : option (list Segment * nat) :=
  match fuel with
  | O => None
  | S fuel' =>
      if Rle_dec dLeft 0 then Some ([], k)
      else if Rlt_dec len 2 then Some ([], k)
      else
        let randomAngle := (random k * 2 - 1) * randomness settings in
        let a := (angleDeg + randomAngle) * PI / 180 in
        let x2 := x + len * cos a in
        let y2 := y - len * sin a in
        let s := {| x1 := x; y1 := y; x2 := x2; y2 := y2; thick := th;
                    depthLeft := dLeft; totalDepth := depth settings |} in
        let newLen := len * shrink settings in
        let newThick := th * (75 / 100) in
        match collectFuel settings random fuel' x2 y2 newLen
                (angleDeg - angle settings) (dLeft - 1) newThick (S k) with
        | None => None
        | Some l =>
            match collectFuel settings random fuel' x2 y2 newLen
                    (angleDeg + angle settings) (dLeft - 1) newThick
                    (snd l) with
            | None => None
            | Some r => Some (s :: fst l ++ fst r, snd r)
            end
        end
  end.

(** The tree of the calls of [collect]: a call that returns at once is a
    [Tip], a call that pushes segment [s] is a [Fork] of [s], the tree of
    its first call (at [angleDeg - angle]) and the tree of its second
    call (at [angleDeg + angle]). *)
Inductive CallTree : Type :=
  | Tip
  | Fork (s : Segment) (first second : CallTree).

Fixpoint preorder (t : CallTree) : list Segment :=
  match t with
  | Tip => []
  | Fork s l r => s :: preorder l ++ preorder r
  end.

Equations? collectTree (settings : Settings) (random : nat -> R)
  (x y len angleDeg dLeft th : R) (k : nat)
  : CallTree * nat by wf (levels dLeft) lt :=
collectTree settings random x y len angleDeg dLeft th k
  with Rle_dec dLeft 0 := {
  | left _ => (Tip, k)
  | right Hd with Rlt_dec len 2 := {
    | left _ => (Tip, k)
    | right _ =>
        let randomAngle := (random k * 2 - 1) * randomness settings in
        let a := (angleDeg + randomAngle) * PI / 180 in
        let x2 := x + len * cos a in
        let y2 := y - len * sin a in
        let s := {| x1 := x; y1 := y; x2 := x2; y2 := y2; thick := th;
                    depthLeft := dLeft;
                    totalDepth := depth settings |} in
        let newLen := len * shrink settings in
        let newThick := th * (75 / 100) in
        let l := collectTree settings random x2 y2 newLen
                   (angleDeg - angle settings) (dLeft - 1) newThick (S k) in
        let r := collectTree settings random x2 y2 newLen
                   (angleDeg + angle settings) (dLeft - 1) newThick
                   (snd l) in
        (Fork s (fst l) (fst r), snd r) } }.
Proof.
  all: levels_decrease.
Qed.

(** Segment [s] runs from its start point for distance [len] in a
    direction within [bound] degrees of [a] degrees. *)
Definition perturbed (bound len a : R) (s : Segment) : Prop :=
  exists delta : R,
    Rabs delta <= Rabs bound
    /\ x2 s = x1 s + len * cos ((a + delta) * PI / 180)
    /\ y2 s = y1 s - len * sin ((a + delta) * PI / 180).

(** Two segments are the same branch of the tree, drawn with two random
    perturbations. *)
Definition sameBranch (bound : R) (s s' : Segment) : Prop :=
  thick s = thick s'
  /\ depthLeft s = depthLeft s'
  /\ totalDepth s = totalDepth s'
  /\ exists len a : R, perturbed bound len a s /\ perturbed bound len a s'.

(** Two call trees have the same shape. *)
Fixpoint sameShape (t t' : CallTree) : Prop :=
  match t, t' with
  | Tip, Tip => True
  | Fork _ l r, Fork _ l' r' => sameShape l l' /\ sameShape r r'
  | _, _ => False
  end.

(** The canvas of the reference deployment, nothing painted yet. *)
Definition canvas1000x650 : Canvas :=
  {| width := 1000; height := 650;
     context2d := Some {| shadowBlur := 0; shadowColor := "transparent";
                          painted := [] |} |}.

(** The state of the component before its effects have run, with a
    canvas [cv] behind [canvasRef]. *)
Definition initialState (cv : option Canvas) : AppState :=
  {| canvasRef := cv; windTimeRef := 0; segmentsRef := [];
     growIndexRef := 0; rafRef := None; randomCalls := 0;
     nextFrame := 1%positive; pendingFrames := []; downloads := [] |}.

(** The canvas is there and [getContext("2d")] returns a context. *)
Definition hasContext (st : AppState) : Prop :=
  exists canvas ctx,
    canvasRef st = Some canvas /\ context2d canvas = Some ctx.

(** Two states differ at most in the registration of the frame callback:
    [rafRef] and the handles of the host. *)
Definition sameButLoop (st st' : AppState) : Prop :=
  canvasRef st = canvasRef st'
  /\ windTimeRef st = windTimeRef st'
  /\ segmentsRef st = segmentsRef st'
  /\ growIndexRef st = growIndexRef st'
  /\ randomCalls st = randomCalls st'
  /\ downloads st = downloads st'.

(** A state with a list of 500 segments, nothing revealed yet. *)
Definition state500 : AppState :=
  {| canvasRef := Some canvas1000x650; windTimeRef := 0;
     segmentsRef :=
       repeat {| x1 := 500; y1 := 630; x2 := 500; y2 := 480; thick := 10;
                 depthLeft := 1; totalDepth := 1 |} 500;
     growIndexRef := 0; rafRef := None; randomCalls := 0;
     nextFrame := 1%positive; pendingFrames := []; downloads := [] |}.

(** A canvas whose [getContext("2d")] returns [null]. *)
Definition canvasNoContext : Canvas :=
  {| width := 1000; height := 650; context2d := None |}.

(** A state in the middle of an animation whose canvas gives no
    context: 500 segments, 160 of them revealed, the wind time of two
    frames at wind speed 1.2. *)
Definition stateNoContext : AppState :=
  {| canvasRef := Some canvasNoContext; windTimeRef := 48 / 1000;
     segmentsRef :=
       repeat {| x1 := 500; y1 := 630; x2 := 500; y2 := 480; thick := 10;
                 depthLeft := 1; totalDepth := 1 |} 500;
     growIndexRef := 160; rafRef := None; randomCalls := 720;
     nextFrame := 3%positive; pendingFrames := []; downloads := [] |}.

(** The state over 500 segments two frames into the default animation:
    160 segments revealed, the callback of the third frame pending. *)
Definition stateGrowing : AppState :=
  {| canvasRef := Some canvas1000x650; windTimeRef := 48 / 1000;
     segmentsRef :=
       repeat {| x1 := 500; y1 := 630; x2 := 500; y2 := 480; thick := 10;
                 depthLeft := 1; totalDepth := 1 |} 500;
     growIndexRef := 160; rafRef := Some 3%positive; randomCalls := 720;
     nextFrame := 4%positive; pendingFrames := [3%positive];
     downloads := [] |}.

(** The default settings with wind animation switched off. *)
Definition calmSettings : Settings :=
  {| depth := 11; angle := 25; length := 150; shrink := 67 / 100;
     thickness := 10; randomness := 2; leafMode := true;
     animateWind := false; windStrength := 4; windSpeed := 12 / 10;
     growAnimation := true; growSpeed := 80; preset := spring |}.

(* ------------------------------------------------------------------ *)
(** ** The rest of the component *)

(** [Math.floor]. *)
Definition Math_floor (x : R) : R := IZR (Int_part x).

(** [Number(x.toFixed(2))]: the multiple of 1/100 nearest to [x], the
    larger one of two equally near, the sign of a negative [x] being set
    aside first. *)
Definition toFixed2 (x : R) : R :=
  if Rlt_dec x 0 then - (Math_floor (- x * 100 + 1 / 2) / 100)
  else Math_floor (x * 100 + 1 / 2) / 100.

(** The updater of [randomize], applied to the previous settings; [k]
    counts the calls of [Math.random] made so far, the seven calls being
    made in the order of the fields of the object literal. *)
Definition randomize (random : nat -> R) (k : nat) (prev : Settings)
  : Settings * nat :=
  ({| depth := Math_floor (random k * 6) + 9;
      angle := Math_floor (random (k + 1)%nat * 35) + 10;
      length := Math_floor (random (k + 2)%nat * 90) + 120;
      shrink := toFixed2 (random (k + 3)%nat * (18 / 100) + 58 / 100);
      thickness := Math_floor (random (k + 4)%nat * 10) + 6;
      randomness := Math_floor (random (k + 5)%nat * 8);
      leafMode := if Rgt_dec (random (k + 6)%nat) (2 / 10) then true
                  else false;
      animateWind := animateWind prev;
      windStrength := windStrength prev;
      windSpeed := windSpeed prev;
      growAnimation := growAnimation prev;
      growSpeed := growSpeed prev;
      preset := preset prev |},
   (k + 7)%nat).

(** The [min] and [max] of the range inputs of the controls. *)
Definition withinSliders (s : Settings) : Prop :=
  1 <= depth s <= 15
  /\ 5 <= angle s <= 60
  /\ 60 <= length s <= 240
  /\ 5 / 10 <= shrink s <= 85 / 100
  /\ 1 <= thickness s <= 22
  /\ 0 <= randomness s <= 12
  /\ 0 <= windStrength s <= 12
  /\ 2 / 10 <= windSpeed s <= 3
  /\ 10 <= growSpeed s <= 250.

(** Every segment of a call tree other than its root starts where the
    segment above it ends, and the root starts at [(x, y)]. *)
Fixpoint attached (x y : R) (t : CallTree) : Prop :=
  match t with
  | Tip => True
  | Fork s l r =>
      x1 s = x /\ y1 s = y
      /\ attached (x2 s) (y2 s) l /\ attached (x2 s) (y2 s) r
  end.

(** The callbacks the host holds are the one whose handle is in
    [rafRef], if any. *)
Definition oneLoop (st : AppState) : Prop :=
  pendingFrames st = match rafRef st with
                     | Some h => [h]
                     | None => []
                     end.

(** A white dot of opacity [alpha] with its centre on a canvas of [w]
    by [h] and a radius from 0.2 up to 1.7. *)
Definition dotOnCanvas (w h alpha : R) (op : DrawOp) : Prop :=
  match op with
  | FillCircle x y r color a =>
      0 <= x < w /\ 0 <= y < h /\ 2 / 10 <= r < 17 / 10
      /\ color = "#ffffff"%string /\ a = alpha
  | _ => False
  end.

(* ================================================================== *)
(** * Properties *)

(** Decides the comparisons of concrete numbers that guard a branch. *)
Ltac decide_guards :=
  repeat match goal with
    | |- context [Rle_dec ?a ?b] => destruct (Rle_dec a b); try lra
    | |- context [Rlt_dec ?a ?b] => destruct (Rlt_dec a b); try lra
    | |- context [Rgt_dec ?a ?b] => destruct (Rgt_dec a b); try lra
    end.

(* ------------------------------------------------------------------ *)
(** ** Colour of a segment *)

(** C3.  The colour of a segment is a function of the ratio
    [depthLeft / totalDepth], the leaf-mode flag and the preset: with leaf
    mode off it is the branch colour of the preset; with leaf mode on it
    is the trunk colour when the ratio is above 0.55, the branch colour
    when it is above 0.25 and at most 0.55, and the leaf colour when it is
    at most 0.25.  For preset spring with leaf mode on, ratio 0.9 gives
    #a16207, ratio 0.4 gives #16a34a and ratio 0.1 gives #22c55e. *)
Theorem branchColor_of_ratio (settings : Settings) (dl td : R) :
  let ratio := dl / td in
  let c := presetColors (preset settings) in
  branchColor settings dl td
    = colorOfRatio ratio (leafMode settings) (preset settings)
  /\ (leafMode settings = false -> branchColor settings dl td = branch c)
  /\ (leafMode settings = true -> ratio > 55 / 100 ->
      branchColor settings dl td = trunk c)
  /\ (leafMode settings = true -> 25 / 100 < ratio <= 55 / 100 ->
      branchColor settings dl td = branch c)
  /\ (leafMode settings = true -> ratio <= 25 / 100 ->
      branchColor settings dl td = leaf c)
  /\ (leafMode settings = true -> preset settings = spring ->
      (ratio = 9 / 10 -> branchColor settings dl td = "#a16207"%string)
      /\ (ratio = 4 / 10 -> branchColor settings dl td = "#16a34a"%string)
      /\ (ratio = 1 / 10 -> branchColor settings dl td = "#22c55e"%string)).
Proof.
  unfold branchColor, colorOfRatio; cbv zeta.
  destruct (leafMode settings); simpl.
  - split; [reflexivity|].
    split; [discriminate|].
    split; [intros _ Hr; decide_guards; reflexivity|].
    split; [intros _ Hr; decide_guards; reflexivity|].
    split; [intros _ Hr; decide_guards; reflexivity|].
    intros _ Hp; rewrite Hp.
    repeat split; intros Hr; rewrite Hr; decide_guards; reflexivity.
  - repeat split; intros; try discriminate; reflexivity.
Qed.

(** The three sample ratios of C3, as quotients of a depth left by a total
    depth of 10. *)
Lemma branchColor_of_ratio_witness :
  branchColor initialSettings 9 10 = "#a16207"%string
  /\ branchColor initialSettings 4 10 = "#16a34a"%string
  /\ branchColor initialSettings 1 10 = "#22c55e"%string.
Proof.
  pose proof (branchColor_of_ratio initialSettings 9 10) as H9.
  pose proof (branchColor_of_ratio initialSettings 4 10) as H4.
  pose proof (branchColor_of_ratio initialSettings 1 10) as H1.
  cbv zeta in H9, H4, H1.
  destruct H9 as (_ & _ & _ & _ & _ & H9).
  destruct H4 as (_ & _ & _ & _ & _ & H4).
  destruct H1 as (_ & _ & _ & _ & _ & H1).
  destruct (H9 eq_refl eq_refl) as (H9' & _ & _).
  destruct (H4 eq_refl eq_refl) as (_ & H4' & _).
  destruct (H1 eq_refl eq_refl) as (_ & _ & H1').
  split; [apply H9'; lra | split; [apply H4'; lra | apply H1'; lra]].
Defined.

(* ------------------------------------------------------------------ *)
(** ** Induction on the depth left *)

Lemma levels_pred (d : R) : ~ d <= 0 -> (levels (d - 1) < levels d)%nat.
Proof.
  intro Hd. levels_decrease.
Qed.

(** The defining equation of [collect], in the shape of the source: the
    guard [depthLeft <= 0 || len < 2], then the push and the two calls. *)
Lemma collect_eq (settings : Settings) (random : nat -> R)
  (x y len angleDeg dLeft th : R) (k : nat) :
  collect settings random x y len angleDeg dLeft th k =
  if Rle_dec dLeft 0 then ([], k)
  else if Rlt_dec len 2 then ([], k)
  else
    let randomAngle := (random k * 2 - 1) * randomness settings in
    let a := (angleDeg + randomAngle) * PI / 180 in
    let x2 := x + len * cos a in
    let y2 := y - len * sin a in
    let s := {| x1 := x; y1 := y; x2 := x2; y2 := y2; thick := th;
                depthLeft := dLeft; totalDepth := depth settings |} in
    let newLen := len * shrink settings in
    let newThick := th * (75 / 100) in
    let l := collect settings random x2 y2 newLen
               (angleDeg - angle settings) (dLeft - 1) newThick (S k) in
    let r := collect settings random x2 y2 newLen
               (angleDeg + angle settings) (dLeft - 1) newThick (snd l) in
    (s :: fst l ++ fst r, snd r).
Proof.
  simp collect.
  destruct (Rle_dec dLeft 0); simpl; [reflexivity|].
  destruct (Rlt_dec len 2); simpl; reflexivity.
Qed.

Lemma levels_positive (d : R) : ~ d <= 0 -> (0 < levels d)%nat.
Proof.
  intro Hd. pose proof (levels_pred d Hd). lia.
Qed.

(** A property of every depth left follows from its truth at the depths
    where [collect] returns at once and its passage from [d - 1] to [d]. *)
Lemma depth_ind (P : R -> Prop) :
  (forall d, d <= 0 -> P d) ->
  (forall d, ~ d <= 0 -> P (d - 1) -> P d) ->
  forall d, P d.
Proof.
  intros Hstop Hstep.
  assert (H : forall n d, (levels d <= n)%nat -> P d).
  { induction n as [|n IH]; intros d Hn.
    - destruct (Rle_dec d 0) as [Hd|Hd]; [now apply Hstop|].
      pose proof (levels_positive d Hd). lia.
    - destruct (Rle_dec d 0) as [Hd|Hd]; [now apply Hstop|].
      apply Hstep; [assumption|]. apply IH.
      pose proof (levels_pred d Hd). lia. }
  intro d. apply (H (levels d)). lia.
Qed.

Lemma collect_stop (settings : Settings) (random : nat -> R)
  (x y len a d th : R) (k : nat) :
  d <= 0 \/ len < 2 ->
  collect settings random x y len a d th k = ([], k).
Proof.
  intro H. rewrite collect_eq.
  destruct (Rle_dec d 0); [reflexivity|].
  destruct (Rlt_dec len 2); [reflexivity|]. lra.
Qed.

Lemma collect_push (settings : Settings) (random : nat -> R)
  (x y len a d th : R) (k : nat) :
  ~ (d <= 0 \/ len < 2) ->
  collect settings random x y len a d th k =
  let e := (a + (random k * 2 - 1) * randomness settings) * PI / 180 in
  let l := collect settings random (x + len * cos e) (y - len * sin e)
             (len * shrink settings) (a - angle settings) (d - 1)
             (th * (75 / 100)) (S k) in
  let r := collect settings random (x + len * cos e) (y - len * sin e)
             (len * shrink settings) (a + angle settings) (d - 1)
             (th * (75 / 100)) (snd l) in
  ({| x1 := x; y1 := y; x2 := x + len * cos e; y2 := y - len * sin e;
      thick := th; depthLeft := d; totalDepth := depth settings |}
   :: fst l ++ fst r, snd r).
Proof.
  intro H. rewrite collect_eq.
  destruct (Rle_dec d 0); [exfalso; apply H; now left|].
  destruct (Rlt_dec len 2); [exfalso; apply H; now right|].
  reflexivity.
Qed.

(** Every segment pushed below a call with [d] levels left has between
    one and [d] levels left, and the depth of the settings as its total
    depth. *)
Lemma collect_depth_range (settings : Settings) (random : nat -> R) :
  forall d x y len a th k,
    Forall (fun s => 0 < depthLeft s <= d
                     /\ totalDepth s = depth settings)
      (fst (collect settings random x y len a d th k)).
Proof.
  apply (depth_ind (fun d => forall x y len a th k,
    Forall (fun s => 0 < depthLeft s <= d
                     /\ totalDepth s = depth settings)
      (fst (collect settings random x y len a d th k)))).
  - intros d Hd x y len a th k.
    rewrite collect_stop by now left. constructor.
  - intros d Hd IH x y len a th k.
    destruct (Rlt_dec len 2) as [Hl|Hl].
    + rewrite collect_stop by now right. constructor.
    + rewrite collect_push by (intros [?|?]; contradiction).
      cbv zeta. simpl fst. constructor.
      * simpl. split; [lra|reflexivity].
      * apply Forall_app. split.
        -- eapply Forall_impl; [|apply IH]. simpl. intros s [? ?].
           split; [lra|assumption].
        -- eapply Forall_impl; [|apply IH]. simpl. intros s [? ?].
           split; [lra|assumption].
Qed.

(* ------------------------------------------------------------------ *)
(** ** Wind sway *)

(** C4.  With wind animation disabled the sway angle of [getWindAngle]
    is 0 for every segment and every wind time; with it enabled the angle
    is [sin(windTime) * windStrength * (1 - depthLeft/totalDepth)], and
    its magnitude is bounded by [windStrength * leafFactor]: in absolute
    value in general, and as it stands for a wind strength that is not
    negative and a segment whose depth left does not exceed its positive
    total depth, as is every segment that the builder pushes. *)
Theorem getWindAngle_bounded (settings : Settings) (t dl td : R) :
  (animateWind settings = false -> getWindAngle settings t dl td = 0)
  /\ (animateWind settings = true ->
      getWindAngle settings t dl td
        = sin t * windStrength settings * (1 - dl / td))
  /\ Rabs (getWindAngle settings t dl td)
       <= Rabs (windStrength settings * (1 - dl / td))
  /\ (0 <= windStrength settings -> 0 < td -> dl <= td ->
      Rabs (getWindAngle settings t dl td)
        <= windStrength settings * (1 - dl / td))
  /\ (0 <= windStrength settings ->
      forall (build : Settings) (random : nat -> R) x y len a th k s,
        In s (fst (collect build random x y len a (depth build) th k)) ->
        Rabs (getWindAngle settings t (depthLeft s) (totalDepth s))
          <= windStrength settings
             * (1 - depthLeft s / totalDepth s)).
Proof.
  assert (Habs : Rabs (getWindAngle settings t dl td)
                 <= Rabs (windStrength settings * (1 - dl / td))).
  { unfold getWindAngle. destruct (animateWind settings); simpl.
    - rewrite Rabs_mult.
      pose proof (SIN_bound t) as Hs.
      assert (Rabs (sin t) <= 1) by (apply Rabs_le; lra).
      pose proof (Rabs_pos (windStrength settings * (1 - dl / td))).
      nra.
    - rewrite Rabs_R0. apply Rabs_pos. }
  assert (Hpos : forall ws d' t', 0 <= ws -> 0 < t' -> d' <= t' ->
                 0 <= ws * (1 - d' / t')).
  { intros ws d' t' Hw Ht Hd. apply Rmult_le_pos; [assumption|].
    assert (d' / t' <= 1).
    { apply Rmult_le_reg_r with t'; [assumption|].
      unfold Rdiv. rewrite Rmult_assoc, Rinv_l by lra. lra. }
    lra. }
  split; [|split; [|split; [|split]]].
  - intro H. unfold getWindAngle. rewrite H. reflexivity.
  - intro H. unfold getWindAngle. rewrite H. simpl. ring.
  - exact Habs.
  - intros Hw Ht Hd. rewrite <- (Rabs_pos_eq (_ * _)) by now apply Hpos.
    exact Habs.
  - intros Hw build random x y len a th k s Hin.
    pose proof (collect_depth_range build random (depth build)
                  x y len a th k) as HF.
    rewrite Forall_forall in HF. destruct (HF s Hin) as [[H0 H1] H2].
    rewrite <- (Rabs_pos_eq (_ * _)) by (apply Hpos; lra).
    clear Habs. unfold getWindAngle.
    destruct (animateWind settings); simpl.
    + rewrite Rabs_mult.
      pose proof (SIN_bound t) as Hs.
      assert (Rabs (sin t) <= 1) by (apply Rabs_le; lra).
      pose proof (Rabs_pos (windStrength settings
                            * (1 - depthLeft s / totalDepth s))).
      nra.
    + rewrite Rabs_R0. apply Rabs_pos.
Qed.

(** C4 at the default settings, wind time 1, a segment with 3 of 11
    levels left. *)
Lemma getWindAngle_bounded_witness :
  Rabs (getWindAngle initialSettings 1 3 11)
    <= windStrength initialSettings * (1 - 3 / 11).
Proof.
  destruct (getWindAngle_bounded initialSettings 1 3 11)
    as (_ & _ & _ & H & _).
  apply H; simpl; lra.
Defined.

(** The first segment pushed by a build is the trunk base: its depth left
    is the total depth, and that depth is positive. *)
Lemma collect_root (build : Settings) (random : nat -> R)
  (x y len a th : R) (k : nat) (s : Segment) (rest : list Segment) :
  fst (collect build random x y len a (depth build) th k) = s :: rest ->
  depthLeft s = totalDepth s /\ 0 < totalDepth s.
Proof.
  intro H.
  destruct (Rle_dec (depth build) 0) as [Hd|Hd].
  { rewrite collect_stop in H by now left. discriminate. }
  destruct (Rlt_dec len 2) as [Hl|Hl].
  { rewrite collect_stop in H by now right. discriminate. }
  rewrite collect_push in H by (intros [?|?]; contradiction).
  cbv zeta in H. simpl in H. injection H as Hs _. subst s. simpl.
  split; [reflexivity|lra].
Qed.

(** C10.  For a segment whose depth left equals its total depth, the
    total depth not being zero, [getWindAngle] is exactly 0 at every wind
    time, for every wind strength and with wind enabled or not, so the
    end point the segment is drawn to is the same at all wind times and
    under all settings; the first segment a build pushes, the trunk
    base, is such a segment. *)
Theorem trunk_base_never_sways (settings : Settings) (t d : R) :
  d <> 0 ->
  getWindAngle settings t d d = 0
  /\ (forall s settings' t',
        depthLeft s = d -> totalDepth s = d ->
        renderedEnd settings t s = renderedEnd settings' t' s)
  /\ (forall (build : Settings) (random : nat -> R) x y len a th k s rest,
        fst (collect build random x y len a (depth build) th k)
          = s :: rest ->
        depthLeft s = totalDepth s
        /\ getWindAngle settings t (depthLeft s) (totalDepth s) = 0).
Proof.
  intro Hd.
  assert (H0 : forall st' tt e, e <> 0 -> getWindAngle st' tt e e = 0).
  { intros st' tt e He. unfold getWindAngle.
    destruct (animateWind st'); simpl; [|reflexivity].
    unfold Rdiv. rewrite Rinv_r by assumption. ring. }
  split; [now apply H0|]. split.
  - intros s settings' t' Hl Ht. unfold renderedEnd. cbv zeta.
    rewrite Hl, Ht, !H0 by assumption. reflexivity.
  - intros build random x y len a th k s rest H.
    destruct (collect_root _ _ _ _ _ _ _ _ _ _ H) as [He Hp].
    split; [assumption|]. rewrite He. apply H0. lra.
Qed.

(** C10 at the default settings: a trunk base with 11 of 11 levels, wind
    time 1. *)
Lemma trunk_base_never_sways_witness :
  getWindAngle initialSettings 1 11 11 = 0.
Proof.
  apply (trunk_base_never_sways initialSettings 1 11). lra.
Defined.

(* ------------------------------------------------------------------ *)
(** ** Termination and size of a build *)

(** A call stack of [levels d + 1] calls is enough for a call with [d]
    levels left, and the bounded reading then returns the result of
    [collect]. *)
Lemma collectFuel_enough (settings : Settings) (random : nat -> R) :
  forall fuel x y len a d th k,
    (levels d < fuel)%nat ->
    collectFuel settings random fuel x y len a d th k
      = Some (collect settings random x y len a d th k).
Proof.
  induction fuel as [|fuel IH]; intros x y len a d th k Hf; [lia|].
  simpl. rewrite collect_eq.
  destruct (Rle_dec d 0) as [Hd|Hd]; [reflexivity|].
  destruct (Rlt_dec len 2) as [Hl|Hl]; [reflexivity|].
  pose proof (levels_pred d Hd) as Hp.
  cbv zeta. rewrite !IH by lia. reflexivity.
Qed.

(** A call with [d] levels left pushes fewer than [2 ^ levels d]
    segments. *)
Lemma collect_length (settings : Settings) (random : nat -> R) :
  forall d x y len a th k,
    (List.length (fst (collect settings random x y len a d th k)) + 1
     <= 2 ^ levels d)%nat.
Proof.
  apply (depth_ind (fun d => forall x y len a th k,
    (List.length (fst (collect settings random x y len a d th k)) + 1
     <= 2 ^ levels d)%nat)).
  - intros d Hd x y len a th k.
    rewrite collect_stop by now left. simpl.
    pose proof (Nat.pow_nonzero 2 (levels d)). lia.
  - intros d Hd IH x y len a th k.
    destruct (Rlt_dec len 2) as [Hl|Hl].
    + rewrite collect_stop by now right. simpl.
      pose proof (Nat.pow_nonzero 2 (levels d)). lia.
    + rewrite collect_push by (intros [?|?]; contradiction).
      cbv zeta. simpl fst. simpl List.length. rewrite length_app.
      set (e := (a + (random k * 2 - 1) * randomness settings) * PI / 180).
      pose proof (IH (x + len * cos e) (y - len * sin e)
                    (len * shrink settings) (a - angle settings)
                    (th * (75 / 100)) (S k)) as H1.
      set (l := collect settings random (x + len * cos e)
                  (y - len * sin e) (len * shrink settings)
                  (a - angle settings) (d - 1) (th * (75 / 100)) (S k))
        in *.
      pose proof (IH (x + len * cos e) (y - len * sin e)
                    (len * shrink settings) (a + angle settings)
                    (th * (75 / 100)) (snd l)) as H2.
      pose proof (levels_pred d Hd) as Hp.
      assert (Hpow : (2 ^ S (levels (d - 1)) <= 2 ^ levels d)%nat)
        by (apply Nat.pow_le_mono_r; lia).
      rewrite Nat.pow_succ_r' in Hpow. lia.
Qed.

(** [2 ^ levels depth] is at most [2 ^ (depth + 1)] for a depth that is
    not negative. *)
Lemma pow_levels_le (d : R) :
  0 <= d -> INR (2 ^ levels d) <= Rpower 2 (d + 1).
Proof.
  intro Hd. rewrite pow_INR. simpl (INR 2).
  rewrite <- Rpower_pow by lra.
  apply Rle_Rpower; [lra|].
  unfold levels. rewrite INR_IZR_INZ.
  destruct (archimed d) as [Hu1 Hu2].
  assert (0 <= up d)%Z by (apply le_IZR; lra).
  rewrite Z2Nat.id by assumption. lra.
Qed.

(** C1.  For settings with depth at least 1 and shrink below 1 the
    builder terminates: the calls of [collect] are never nested deeper
    than [levels depth + 1], and the segment list it produces has at most
    [2^(depth+1) - 1] segments.  A call of [collect] pushes nothing and
    makes no further call exactly when its depth left is at most 0 or
    its length is below 2. *)
Theorem collect_terminates_bounded (settings : Settings)
  (random : nat -> R) :
  1 <= depth settings -> shrink settings < 1 ->
  (forall x y k fuel,
     (levels (depth settings) < fuel)%nat ->
     collectFuel settings random fuel x y (length settings) 90
       (depth settings) (thickness settings) k
     = Some (collect settings random x y (length settings) 90
               (depth settings) (thickness settings) k))
  /\ (forall x y k,
        INR (List.length
               (fst (collect settings random x y (length settings) 90
                       (depth settings) (thickness settings) k)))
        <= Rpower 2 (depth settings + 1) - 1)
  /\ (forall st canvas ctx,
        canvasRef st = Some canvas -> context2d canvas = Some ctx ->
        INR (List.length (segmentsRef (buildSegments settings random st)))
        <= Rpower 2 (depth settings + 1) - 1)
  /\ (forall x y len a d th k,
        (d <= 0 \/ len < 2)
        <-> collectFuel settings random 1 x y len a d th k = Some ([], k))
  /\ (forall x y len a d th k,
        (d <= 0 \/ len < 2)
        <-> fst (collect settings random x y len a d th k) = []).
Proof.
  intros Hdepth Hshrink.
  assert (Hlen : forall x y k,
    INR (List.length
           (fst (collect settings random x y (length settings) 90
                   (depth settings) (thickness settings) k)))
    <= Rpower 2 (depth settings + 1) - 1).
  { intros x y k.
    pose proof (collect_length settings random (depth settings) x y
                  (length settings) 90 (thickness settings) k) as H.
    apply le_INR in H. rewrite plus_INR in H. simpl (INR 1) in H.
    pose proof (pow_levels_le (depth settings)). lra. }
  split; [|split; [|split; [|split]]].
  - intros x y k fuel Hf. now apply collectFuel_enough.
  - exact Hlen.
  - intros st canvas ctx Hc Hx. unfold buildSegments.
    rewrite Hc, Hx. cbv zeta. simpl segmentsRef. apply Hlen.
  - intros x y len a d th k. simpl.
    destruct (Rle_dec d 0) as [Hd|Hd]; [split; [reflexivity|now left]|].
    destruct (Rlt_dec len 2) as [Hl|Hl]; [split; [reflexivity|now right]|].
    split; [intros [?|?]; contradiction|discriminate].
  - intros x y len a d th k. split.
    + intro H. now rewrite collect_stop.
    + intro H.
      destruct (Rle_dec d 0) as [Hd|Hd]; [now left|].
      destruct (Rlt_dec len 2) as [Hl|Hl]; [now right|].
      rewrite collect_push in H by (intros [?|?]; contradiction).
      discriminate.
Qed.

(** C1 at the default settings (depth 11, shrink 0.67), on the canvas of
    the reference deployment. *)
Lemma collect_terminates_bounded_witness :
  INR (List.length
         (segmentsRef
            (buildSegments initialSettings (fun _ => 1 / 2)
               (initialState (Some canvas1000x650)))))
  <= Rpower 2 (11 + 1) - 1.
Proof.
  destruct (collect_terminates_bounded initialSettings (fun _ => 1 / 2))
    as (_ & _ & H & _); [simpl; lra | simpl; lra |].
  exact (H (initialState (Some canvas1000x650)) canvas1000x650 _
           eq_refl eq_refl).
Defined.

(* ------------------------------------------------------------------ *)
(** ** The one-segment scenario *)

(** C5.  With depth 1, angle 25, length 150, shrink 0.67, thickness 10 and
    randomness 0 on a canvas of 1000 by 650 the builder pushes exactly one
    segment, from (500, 630) to (500, 480), whatever [Math.random]
    returns: the direction is 90 degrees, the segment is vertical and its
    y coordinate decreases by the length. *)
Theorem buildSegments_single_segment (settings : Settings)
  (random : nat -> R) (st : AppState) (canvas : Canvas)
  (ctx : Context2D) :
  depth settings = 1 -> angle settings = 25 -> length settings = 150 ->
  shrink settings = 67 / 100 -> thickness settings = 10 ->
  randomness settings = 0 ->
  canvasRef st = Some canvas -> context2d canvas = Some ctx ->
  width canvas = 1000 -> height canvas = 650 ->
  segmentsRef (buildSegments settings random st)
  = [ {| x1 := 500; y1 := 630; x2 := 500; y2 := 480; thick := 10;
         depthLeft := 1; totalDepth := 1 |} ].
Proof.
  intros Hd Ha Hl Hs Ht Hr Hc Hx Hw Hh.
  unfold buildSegments. rewrite Hc, Hx. cbv zeta. simpl segmentsRef.
  rewrite Hd, Hl, Ht, Hw, Hh.
  rewrite collect_push by (intros [?|?]; lra).
  cbv zeta. simpl fst.
  rewrite Hr, Hs, Ha.
  replace ((90 + (random (randomCalls st) * 2 - 1) * 0) * PI / 180)
    with (PI / 2) by field.
  rewrite cos_PI2, sin_PI2.
  rewrite !collect_stop by (left; lra).
  simpl. rewrite Hd.
  f_equal. f_equal; lra.
Qed.

(** C5 for the default settings with depth 1 and randomness 0, from the
    state before any effect has run. *)
Lemma buildSegments_single_segment_witness :
  segmentsRef
    (buildSegments
       {| depth := 1; angle := 25; length := 150; shrink := 67 / 100;
          thickness := 10; randomness := 0; leafMode := true;
          animateWind := true; windStrength := 4; windSpeed := 12 / 10;
          growAnimation := true; growSpeed := 80; preset := spring |}
       (fun _ => 1 / 2) (initialState (Some canvas1000x650)))
  = [ {| x1 := 500; y1 := 630; x2 := 500; y2 := 480; thick := 10;
         depthLeft := 1; totalDepth := 1 |} ].
Proof.
  apply (buildSegments_single_segment _ _ _ canvas1000x650
           {| shadowBlur := 0; shadowColor := "transparent";
              painted := [] |});
    reflexivity.
Defined.

(* ------------------------------------------------------------------ *)
(** ** Order of the segment list *)

Lemma collectTree_eq (settings : Settings) (random : nat -> R)
  (x y len a d th : R) (k : nat) :
  collectTree settings random x y len a d th k =
  if Rle_dec d 0 then (Tip, k)
  else if Rlt_dec len 2 then (Tip, k)
  else
    let e := (a + (random k * 2 - 1) * randomness settings) * PI / 180 in
    let l := collectTree settings random (x + len * cos e)
               (y - len * sin e) (len * shrink settings)
               (a - angle settings) (d - 1) (th * (75 / 100)) (S k) in
    let r := collectTree settings random (x + len * cos e)
               (y - len * sin e) (len * shrink settings)
               (a + angle settings) (d - 1) (th * (75 / 100)) (snd l) in
    (Fork {| x1 := x; y1 := y; x2 := x + len * cos e;
             y2 := y - len * sin e; thick := th; depthLeft := d;
             totalDepth := depth settings |} (fst l) (fst r), snd r).
Proof.
  simp collectTree.
  destruct (Rle_dec d 0); simpl; [reflexivity|].
  destruct (Rlt_dec len 2); simpl; reflexivity.
Qed.

(** The segment list is the pre-order traversal of the tree of calls. *)
Lemma collect_is_preorder (settings : Settings) (random : nat -> R) :
  forall d x y len a th k,
    collect settings random x y len a d th k
    = (preorder (fst (collectTree settings random x y len a d th k)),
       snd (collectTree settings random x y len a d th k)).
Proof.
  apply (depth_ind (fun d => forall x y len a th k,
    collect settings random x y len a d th k
    = (preorder (fst (collectTree settings random x y len a d th k)),
       snd (collectTree settings random x y len a d th k)))).
  - intros d Hd x y len a th k.
    rewrite collect_stop by now left. rewrite collectTree_eq.
    destruct (Rle_dec d 0); [reflexivity|contradiction].
  - intros d Hd IH x y len a th k.
    rewrite collectTree_eq, collect_eq.
    destruct (Rle_dec d 0); [contradiction|].
    destruct (Rlt_dec len 2); [reflexivity|].
    cbv zeta. simpl fst. simpl snd. simpl preorder.
    rewrite !IH. simpl fst. simpl snd. reflexivity.
Qed.

Lemma perturbation_bound (r bound : R) :
  0 <= r < 1 -> Rabs ((r * 2 - 1) * bound) <= Rabs bound.
Proof.
  intro Hr. rewrite Rabs_mult.
  assert (Rabs (r * 2 - 1) <= 1) by (apply Rabs_le; lra).
  pose proof (Rabs_pos bound). nra.
Qed.

(** Two runs of [collect] from the same length, direction, depth and
    thickness, with two random sequences and from two start points, push
    the same branches in the same order. *)
Lemma collect_same_branches (settings : Settings)
  (random random' : nat -> R) :
  (forall n, 0 <= random n < 1) -> (forall n, 0 <= random' n < 1) ->
  forall d x y x' y' len a th k k',
    Forall2 (sameBranch (randomness settings))
      (fst (collect settings random x y len a d th k))
      (fst (collect settings random' x' y' len a d th k'))
    /\ sameShape (fst (collectTree settings random x y len a d th k))
         (fst (collectTree settings random' x' y' len a d th k')).
Proof.
  intros Hr Hr'.
  apply (depth_ind (fun d => forall x y x' y' len a th k k',
    Forall2 (sameBranch (randomness settings))
      (fst (collect settings random x y len a d th k))
      (fst (collect settings random' x' y' len a d th k'))
    /\ sameShape (fst (collectTree settings random x y len a d th k))
         (fst (collectTree settings random' x' y' len a d th k')))).
  - intros d Hd x y x' y' len a th k k'.
    rewrite !collect_stop by now left. rewrite !collectTree_eq.
    destruct (Rle_dec d 0); [|contradiction]. simpl. split; constructor.
  - intros d Hd IH x y x' y' len a th k k'.
    rewrite !collectTree_eq, !collect_eq.
    destruct (Rle_dec d 0); [contradiction|].
    destruct (Rlt_dec len 2); [simpl; split; constructor|].
    cbv zeta. simpl fst. split.
    + constructor.
      * unfold sameBranch. simpl.
        split; [reflexivity|]. split; [reflexivity|].
        split; [reflexivity|].
        exists len, a. split.
        -- exists ((random k * 2 - 1) * randomness settings). simpl.
           split; [now apply perturbation_bound|]. split; reflexivity.
        -- exists ((random' k' * 2 - 1) * randomness settings). simpl.
           split; [now apply perturbation_bound|]. split; reflexivity.
      * apply Forall2_app; apply IH.
    + simpl. split; apply IH.
Qed.

(** C8.  The segment list of a build is in pre-order: it is the pre-order
    traversal of the tree of the calls of [collect], so a segment comes
    before all the segments of its subtree, and the subtree of its first
    call, at [angleDeg - angle], comes entirely before the subtree of its
    second call, at [angleDeg + angle].  Two builds with the same
    settings, whatever [Math.random] returns in each, produce trees of
    the same shape and lists in which segments at the same index are the
    same branch, each drawn within [randomness] degrees of the direction
    of that branch. *)
Theorem collect_preorder_stable (settings : Settings) :
  (forall random x y len a d th k,
     fst (collect settings random x y len a d th k)
     = preorder (fst (collectTree settings random x y len a d th k))
     /\ (~ (d <= 0 \/ len < 2) ->
         let e := (a + (random k * 2 - 1) * randomness settings)
                  * PI / 180 in
         let s := {| x1 := x; y1 := y; x2 := x + len * cos e;
                     y2 := y - len * sin e; thick := th; depthLeft := d;
                     totalDepth := depth settings |} in
         let l := collect settings random (x2 s) (y2 s)
                    (len * shrink settings) (a - angle settings) (d - 1)
                    (th * (75 / 100)) (S k) in
         let r := collect settings random (x2 s) (y2 s)
                    (len * shrink settings) (a + angle settings) (d - 1)
                    (th * (75 / 100)) (snd l) in
         fst (collect settings random x y len a d th k)
         = s :: fst l ++ fst r))
  /\ (forall random random' : nat -> R,
        (forall n, 0 <= random n < 1) ->
        (forall n, 0 <= random' n < 1) ->
        forall x y len a d th k k',
          sameShape (fst (collectTree settings random x y len a d th k))
            (fst (collectTree settings random' x y len a d th k'))
          /\ Forall2 (sameBranch (randomness settings))
               (fst (collect settings random x y len a d th k))
               (fst (collect settings random' x y len a d th k'))).
Proof.
  split.
  - intros random x y len a d th k. split.
    + rewrite collect_is_preorder. reflexivity.
    + intro H. rewrite collect_push by assumption. reflexivity.
  - intros random random' Hr Hr' x y len a d th k k'.
    destruct (collect_same_branches settings random random' Hr Hr'
                d x y x y len a th k k') as [H1 H2].
    split; assumption.
Qed.

(** C8 for two builds at the default settings, one with [Math.random]
    always returning 0 and one with it always returning 1/2. *)
Lemma collect_preorder_stable_witness :
  Forall2 (sameBranch 2)
    (fst (collect initialSettings (fun _ => 0) 500 630 150 90 11 10 0))
    (fst (collect initialSettings (fun _ => 1 / 2) 500 630 150 90 11 10 0)).
Proof.
  destruct (collect_preorder_stable initialSettings) as [_ H].
  apply (H (fun _ => 0) (fun _ => 1 / 2)); intros; lra.
Defined.

(* ------------------------------------------------------------------ *)
(** ** What each function of the driver leaves alone *)

Lemma sameButLoop_refl (st : AppState) : sameButLoop st st.
Proof. repeat split. Qed.

Lemma sameButLoop_trans (a b c : AppState) :
  sameButLoop a b -> sameButLoop b c -> sameButLoop a c.
Proof.
  unfold sameButLoop.
  intros (H1 & H2 & H3 & H4 & H5 & H6) (K1 & K2 & K3 & K4 & K5 & K6).
  repeat split; congruence.
Qed.

Lemma stopLoop_same (st : AppState) : sameButLoop st (stopLoop st).
Proof.
  unfold stopLoop. destruct (rafRef st); repeat split.
Qed.

Lemma startLoop_same (st : AppState) : sameButLoop st (startLoop st).
Proof.
  unfold startLoop.
  pose proof (stopLoop_same st) as H.
  destruct (canvasRef (stopLoop st)) as [canvas|]; [|exact H].
  destruct (context2d canvas); [|exact H].
  eapply sameButLoop_trans; [exact H|]. repeat split.
Qed.

Lemma number_eqb_refl (a : R) : number_eqb a a = true.
Proof.
  unfold number_eqb. destruct (Req_dec_T a a); [reflexivity|contradiction].
Qed.

(** An update in which no dependency of the rebuild effect changed runs
    no rebuild. *)
Lemma updateEffects_no_rebuild (old new : Settings) (oldBg newBg : ThemeBG)
  (random : nat -> R) (st : AppState) :
  shapeDepsSame old new = true ->
  sameButLoop st (updateEffects old new oldBg newBg random st).
Proof.
  intro Hs. unfold updateEffects. rewrite Hs.
  destruct (loopDepsSame old new oldBg newBg).
  - apply sameButLoop_refl.
  - eapply sameButLoop_trans; [apply stopLoop_same|apply startLoop_same].
Qed.

Lemma shapeDepsSame_windStrength (value : R) (old : Settings) :
  shapeDepsSame old (updateWindStrength value old) = true.
Proof.
  unfold shapeDepsSame, updateWindStrength. simpl.
  rewrite !number_eqb_refl. reflexivity.
Qed.

Lemma tick_segments (settings : Settings) (bg : ThemeBG)
  (random : nat -> R) (st : AppState) :
  segmentsRef (tick settings bg random st) = segmentsRef st.
Proof.
  unfold tick. simpl.
  destruct (canvasRef st) as [canvas|]; [|reflexivity].
  destruct (context2d canvas); reflexivity.
Qed.

Lemma tick_windTime (settings : Settings) (bg : ThemeBG)
  (random : nat -> R) (st : AppState) :
  windTimeRef (tick settings bg random st)
  = windTimeRef st + 2 / 100 * windSpeed settings.
Proof.
  unfold tick. simpl.
  destruct (canvasRef st) as [canvas|]; [|reflexivity].
  destruct (context2d canvas); reflexivity.
Qed.

Lemma tick_growIndex (settings : Settings) (bg : ThemeBG)
  (random : nat -> R) (st : AppState) :
  hasContext st ->
  growIndexRef (tick settings bg random st)
  = advanceGrow settings (growIndexRef st) (segmentsRef st).
Proof.
  intros (canvas & ctx & Hc & Hx). unfold tick. simpl.
  rewrite Hc, Hx. reflexivity.
Qed.

Lemma tick_canvas (settings : Settings) (bg : ThemeBG)
  (random : nat -> R) (st : AppState) (canvas : Canvas) (ctx : Context2D) :
  canvasRef st = Some canvas -> context2d canvas = Some ctx ->
  canvasRef (tick settings bg random st)
  = Some (setContext canvas
            (fst (drawSegmentsFrame settings bg random ctx (width canvas)
                    (height canvas)
                    (setWindTime
                       (windTimeRef st + 2 / 100 * windSpeed settings)
                       st)))).
Proof.
  intros Hc Hx. unfold tick. cbv zeta.
  cbn [canvasRef setRaf requestAnimationFrame snd setWindTime].
  rewrite Hc, Hx. unfold drawOnCanvas. cbn [canvasRef]. reflexivity.
Qed.

Lemma tick_hasContext (settings : Settings) (bg : ThemeBG)
  (random : nat -> R) (st : AppState) :
  hasContext st -> hasContext (tick settings bg random st).
Proof.
  intros (canvas & ctx & Hc & Hx). unfold hasContext.
  rewrite (tick_canvas _ _ _ _ _ _ Hc Hx).
  eexists. eexists. split; [reflexivity|]. unfold setContext.
  cbn [context2d]. reflexivity.
Qed.

(** What a frame paints: the background, then the segments below the
    reveal limit computed from the counter as it stood before the frame,
    at the wind time the tick has just advanced to. *)
Lemma tick_paints (settings : Settings) (bg : ThemeBG)
  (random : nat -> R) (st : AppState) (canvas : Canvas) (ctx : Context2D) :
  canvasRef st = Some canvas -> context2d canvas = Some ctx ->
  exists ctx',
    canvasRef (tick settings bg random st)
      = Some (setContext canvas ctx')
    /\ painted ctx'
       = painted ctx
         ++ ClearRect 0 0 (width canvas) (height canvas)
            :: fst (drawBackground bg random (width canvas)
                      (height canvas) (randomCalls st))
            ++ drawLoop settings
                 (windTimeRef st + 2 / 100 * windSpeed settings)
                 (revealLimit settings (growIndexRef st) (segmentsRef st))
                 0 (segmentsRef st).
Proof.
  intros Hc Hx. rewrite (tick_canvas _ _ _ _ _ _ Hc Hx).
  eexists. split; [reflexivity|].
  unfold drawSegmentsFrame. cbv zeta.
  cbn [fst painted setWindTime windTimeRef segmentsRef growIndexRef
       randomCalls].
  reflexivity.
Qed.

(* ------------------------------------------------------------------ *)
(** ** The reveal counter *)

Lemma advanceGrow_below (settings : Settings) (g : R)
  (segs : list Segment) :
  growAnimation settings = true -> g < INR (List.length segs) ->
  advanceGrow settings g segs = g + growSpeed settings.
Proof.
  intros Hg Hlt. unfold advanceGrow. cbv zeta. rewrite Hg.
  destruct (Rlt_dec g (INR (List.length segs))); [reflexivity|lra].
Qed.

Lemma advanceGrow_reached (settings : Settings) (g : R)
  (segs : list Segment) :
  INR (List.length segs) <= g -> advanceGrow settings g segs = g.
Proof.
  intro Hge. unfold advanceGrow. cbv zeta.
  destruct (Rlt_dec g (INR (List.length segs))); [lra|].
  destruct (growAnimation settings); reflexivity.
Qed.

Lemma clamp_le_max (n lo hi : R) : lo <= hi -> clamp n lo hi <= hi.
Proof.
  intro H. unfold clamp.
  apply Rmax_lub; [assumption|apply Rmin_l].
Qed.

Lemma clamp_monotone (n n' lo hi : R) :
  n <= n' -> clamp n lo hi <= clamp n' lo hi.
Proof.
  intro H. unfold clamp.
  apply Rle_max_compat_l. apply Rle_min_compat_l. assumption.
Qed.

Lemma revealLimit_le_length (settings : Settings) (g : R)
  (segs : list Segment) :
  revealLimit settings g segs <= INR (List.length segs).
Proof.
  unfold revealLimit. cbv zeta.
  destruct (growAnimation settings); [|lra].
  apply clamp_le_max. apply pos_INR.
Qed.

Lemma INR_500 : INR 500 = 500.
Proof. rewrite INR_IZR_INZ. reflexivity. Qed.

Lemma frames_S (settings : Settings) (bg : ThemeBG) (random : nat -> R)
  (n : nat) (st : AppState) :
  frames settings bg random (S n) st
  = tick settings bg random (frames settings bg random n st).
Proof. reflexivity. Qed.

Lemma frames_invariant (settings : Settings) (bg : ThemeBG)
  (random : nat -> R) (st : AppState) :
  hasContext st ->
  forall n,
    hasContext (frames settings bg random n st)
    /\ segmentsRef (frames settings bg random n st) = segmentsRef st.
Proof.
  intros Hc n. induction n as [|n [IH1 IH2]].
  - split; [exact Hc|reflexivity].
  - rewrite frames_S. split.
    + now apply tick_hasContext.
    + rewrite tick_segments. exact IH2.
Qed.

(** The counter over the frames of a list of 500 segments revealed 80 a
    frame: 0, 80, ..., 480, 560, and 560 from then on. *)
Lemma grow_sequence_500 (settings : Settings) (bg : ThemeBG)
  (random : nat -> R) (st : AppState) :
  growAnimation settings = true -> growSpeed settings = 80 ->
  List.length (segmentsRef st) = 500%nat -> growIndexRef st = 0 ->
  hasContext st ->
  forall n,
    growIndexRef (frames settings bg random n st) = Rmin (80 * INR n) 560.
Proof.
  intros Hg Hs Hl H0 Hc n. induction n as [|n IH].
  - simpl. rewrite H0. rewrite Rmin_left; lra.
  - rewrite frames_S.
    destruct (frames_invariant settings bg random st Hc n) as [Hn1 Hn2].
    rewrite tick_growIndex by assumption.
    rewrite Hn2, IH, S_INR.
    destruct (le_lt_dec n 6) as [Hle|Hgt].
    + apply le_INR in Hle.
      replace (INR 6) with 6 in Hle by (simpl; lra).
      rewrite (Rmin_left (80 * INR n)) by lra.
      rewrite advanceGrow_below; [|assumption|rewrite Hl, INR_500; lra].
      rewrite Hs. rewrite Rmin_left; lra.
    + assert (H7 : (7 <= n)%nat) by lia.
      apply le_INR in H7.
      replace (INR 7) with 7 in H7 by (simpl; lra).
      rewrite (Rmin_right (80 * INR n)) by lra.
      rewrite advanceGrow_reached by (rewrite Hl, INR_500; lra).
      rewrite Rmin_right; lra.
Qed.

(** C2, as the code has it.  Over a frame drawn with grow animation
    enabled and a grow speed that is not negative, the reveal counter
    does not decrease, and the limit up to which segments are drawn, the
    counter clamped between 0 and the length of the list, does not
    decrease and never exceeds that length.  The counter itself is not
    clamped: it advances by the grow speed after the frame has been drawn
    with the old limit, exactly while it is below the segment count, so
    it ends less than one grow speed above the count.  With grow speed 80
    and 500 segments the counter runs 0, 80, ..., 480, 560, 560, ... and
    the limit 0, 80, ..., 480, 500, 500, ... *)
Theorem reveal_cutoff_frames (settings : Settings) (bg : ThemeBG)
  (random : nat -> R) (st : AppState) :
  growAnimation settings = true -> 0 <= growSpeed settings ->
  hasContext st ->
  let st' := tick settings bg random st in
  let total := INR (List.length (segmentsRef st)) in
  let limit := revealLimit settings (growIndexRef st) (segmentsRef st) in
  let limit' :=
    revealLimit settings (growIndexRef st') (segmentsRef st') in
  segmentsRef st' = segmentsRef st
  /\ growIndexRef st <= growIndexRef st'
  /\ limit <= limit'
  /\ limit' <= total
  /\ (growIndexRef st < total ->
      growIndexRef st' = growIndexRef st + growSpeed settings)
  /\ (total <= growIndexRef st -> growIndexRef st' = growIndexRef st)
  /\ (growIndexRef st < total + growSpeed settings ->
      growIndexRef st' < total + growSpeed settings)
  /\ (forall canvas ctx,
        canvasRef st = Some canvas -> context2d canvas = Some ctx ->
        exists ctx',
          canvasRef st' = Some (setContext canvas ctx')
          /\ painted ctx'
             = painted ctx
               ++ ClearRect 0 0 (width canvas) (height canvas)
                  :: fst (drawBackground bg random (width canvas)
                            (height canvas) (randomCalls st))
                  ++ drawLoop settings (windTimeRef st') limit 0
                       (segmentsRef st))
  /\ (growSpeed settings = 80 ->
      List.length (segmentsRef st) = 500%nat -> growIndexRef st = 0 ->
      forall n,
        growIndexRef (frames settings bg random n st)
          = Rmin (80 * INR n) 560
        /\ revealLimit settings
             (growIndexRef (frames settings bg random n st))
             (segmentsRef (frames settings bg random n st))
           = Rmin (80 * INR n) 500).
Proof.
  intros Hg Hs Hc. cbv zeta.
  rewrite tick_segments, tick_growIndex, tick_windTime by assumption.
  set (g := growIndexRef st). set (segs := segmentsRef st).
  assert (Hcases : (g < INR (List.length segs)
                    /\ advanceGrow settings g segs
                       = g + growSpeed settings)
                   \/ (INR (List.length segs) <= g
                       /\ advanceGrow settings g segs = g)).
  { destruct (Rlt_dec g (INR (List.length segs))) as [Hlt|Hge].
    - left. split; [assumption|now apply advanceGrow_below].
    - right. split; [lra|apply advanceGrow_reached; lra]. }
  assert (Hmono : g <= advanceGrow settings g segs)
    by (destruct Hcases as [[? ->]|[? ->]]; lra).
  split; [reflexivity|]. split; [exact Hmono|].
  split.
  { unfold revealLimit. cbv zeta. rewrite Hg. now apply clamp_monotone. }
  split; [apply revealLimit_le_length|].
  split; [intro; now apply advanceGrow_below|].
  split; [intro; now apply advanceGrow_reached|].
  split; [destruct Hcases as [[? ->]|[? ->]]; lra|].
  split.
  { intros canvas ctx H1 H2.
    destruct (tick_paints settings bg random st canvas ctx H1 H2)
      as (ctx' & Hp1 & Hp2).
    exists ctx'. split; assumption. }
  intros H80 H500 H0 n.
  pose proof (grow_sequence_500 settings bg random st Hg H80 H500 H0 Hc n)
    as Hn.
  destruct (frames_invariant settings bg random st Hc n) as [_ Hsegs].
  split; [exact Hn|].
  rewrite Hn, Hsegs. unfold revealLimit. cbv zeta. rewrite Hg.
  fold segs. rewrite H500, INR_500. unfold clamp.
  pose proof (pos_INR n) as Hpos.
  destruct (Rle_dec (80 * INR n) 500) as [H1|H1].
  - rewrite (Rmin_left (80 * INR n) 560), (Rmin_left (80 * INR n) 500)
      by lra.
    rewrite Rmin_right, Rmax_right by lra. reflexivity.
  - rewrite (Rmin_right (80 * INR n) 500) by lra.
    destruct (Rle_dec (80 * INR n) 560) as [H2|H2].
    + rewrite (Rmin_left (80 * INR n) 560) by lra.
      rewrite Rmin_left, Rmax_right by lra. reflexivity.
    + rewrite (Rmin_right (80 * INR n) 560) by lra.
      rewrite Rmin_left, Rmax_right by lra. reflexivity.
Qed.

(** C2 at the default settings over the list of 500 segments. *)
Lemma reveal_cutoff_frames_witness :
  growIndexRef state500
  <= growIndexRef (tick initialSettings night (fun _ => 0) state500).
Proof.
  apply (reveal_cutoff_frames initialSettings night (fun _ => 0) state500).
  - reflexivity.
  - simpl; lra.
  - exists canvas1000x650. eexists. split; reflexivity.
Defined.

(** Against C2 as stated: at grow speed 80 over 500 segments the counter
    stands at 560 after seven frames, above the length of the list. *)
Lemma reveal_counter_exceeds_length :
  let st := frames initialSettings night (fun _ => 0) 7 state500 in
  growIndexRef st = 560
  /\ INR (List.length (segmentsRef st)) = 500
  /\ ~ growIndexRef st <= INR (List.length (segmentsRef st)).
Proof.
  cbv zeta.
  assert (Hc : hasContext state500).
  { exists canvas1000x650. eexists. split; reflexivity. }
  assert (Hl : List.length (segmentsRef state500) = 500%nat).
  { unfold state500. cbn [segmentsRef]. apply repeat_length. }
  pose proof (grow_sequence_500 initialSettings night (fun _ => 0)
                state500 eq_refl eq_refl Hl eq_refl Hc 7%nat) as Hg.
  destruct (frames_invariant initialSettings night (fun _ => 0)
              state500 Hc 7) as [_ Hs].
  rewrite Hs, Hl, INR_500, Hg.
  replace (INR 7) with 7 by (simpl; lra).
  rewrite Rmin_right by lra.
  split; [reflexivity|]. split; [reflexivity|]. lra.
Qed.

(* ------------------------------------------------------------------ *)
(** ** No drawable surface *)

Lemma buildSegments_no_context (settings : Settings) (random : nat -> R)
  (st : AppState) :
  ~ hasContext st -> buildSegments settings random st = st.
Proof.
  intro H. unfold buildSegments.
  destruct (canvasRef st) as [canvas|] eqn:Hc; [|reflexivity].
  destruct (context2d canvas) as [ctx|] eqn:Hx; [|reflexivity].
  exfalso. apply H. exists canvas, ctx. split; assumption.
Qed.

(** C9, as the code has it.  When the canvas is missing or gives no 2D
    context, the build and the draw return the state as it was.  The
    export tests the canvas only: without a canvas it returns the state
    as it was, and with a canvas that gives no context it still offers
    the file for download, changing nothing else, so that the segment
    list, the reveal counter and the wind time stay as they were.  None
    of the three has a failing path: each is a total function of the
    state. *)
Theorem no_surface_no_op (settings : Settings) (bg : ThemeBG)
  (random : nat -> R) (st : AppState) :
  ~ hasContext st ->
  buildSegments settings random st = st
  /\ drawTreeOnce settings bg random st = st
  /\ segmentsRef (downloadPNG st) = segmentsRef st
  /\ growIndexRef (downloadPNG st) = growIndexRef st
  /\ windTimeRef (downloadPNG st) = windTimeRef st
  /\ (canvasRef st = None -> downloadPNG st = st)
  /\ (forall canvas,
        canvasRef st = Some canvas ->
        downloads (downloadPNG st)
          = downloads st ++ ["fractal-tree.png"%string]
        /\ canvasRef (downloadPNG st) = canvasRef st
        /\ rafRef (downloadPNG st) = rafRef st
        /\ randomCalls (downloadPNG st) = randomCalls st
        /\ nextFrame (downloadPNG st) = nextFrame st
        /\ pendingFrames (downloadPNG st) = pendingFrames st).
Proof.
  intro H.
  pose proof (buildSegments_no_context settings random st H) as Hb.
  split; [exact Hb|]. split.
  - unfold drawTreeOnce. cbv zeta. rewrite Hb.
    destruct (canvasRef st) as [canvas|] eqn:Hc; [|reflexivity].
    destruct (context2d canvas) as [ctx|] eqn:Hx; [|reflexivity].
    exfalso. apply H. exists canvas, ctx. split; assumption.
  - unfold downloadPNG.
    destruct (canvasRef st) as [cv|] eqn:Hc.
    + repeat split; try discriminate; assumption.
    + repeat split; intros; discriminate.
Qed.

(** C9 in the middle of an animation, on a canvas that gives no 2D
    context: the build and the draw change nothing, the export offers
    the file. *)
Lemma no_surface_no_op_witness :
  buildSegments initialSettings (fun _ => 1 / 2) stateNoContext
  = stateNoContext
  /\ drawTreeOnce initialSettings night (fun _ => 1 / 2) stateNoContext
     = stateNoContext
  /\ growIndexRef (downloadPNG stateNoContext) = 160
  /\ downloads (downloadPNG stateNoContext)
     = ["fractal-tree.png"%string].
Proof.
  destruct (no_surface_no_op initialSettings night (fun _ => 1 / 2)
              stateNoContext) as (Hb & Hd & _ & Hg & _ & _ & He).
  - intros (canvas & ctx & Hc & Hx).
    injection Hc as <-. discriminate Hx.
  - destruct (He canvasNoContext eq_refl) as (Hdl & _).
    split; [exact Hb|]. split; [exact Hd|].
    split; [exact Hg|exact Hdl].
Defined.

(** Against C9 as stated: on a canvas that gives no 2D context the export
    is not a no-op; it offers the file for download. *)
Lemma download_without_context :
  ~ hasContext stateNoContext
  /\ downloads (downloadPNG stateNoContext)
     = ["fractal-tree.png"%string]
  /\ downloadPNG stateNoContext <> stateNoContext.
Proof.
  split; [|split].
  - intros (canvas & ctx & Hc & Hx).
    injection Hc as <-. discriminate Hx.
  - reflexivity.
  - intro H. apply (f_equal downloads) in H. discriminate H.
Qed.

(* ------------------------------------------------------------------ *)
(** ** Restart, rebuild and redraw *)

Lemma sameButLoop_hasContext (st st' : AppState) :
  sameButLoop st st' -> hasContext st -> hasContext st'.
Proof.
  intros (H & _) (canvas & ctx & Hc & Hx).
  exists canvas, ctx. rewrite <- H. split; assumption.
Qed.

Lemma buildSegments_growIndex (settings : Settings) (random : nat -> R)
  (st : AppState) :
  hasContext st -> growIndexRef (buildSegments settings random st) = 0.
Proof.
  intros (canvas & ctx & Hc & Hx). unfold buildSegments.
  rewrite Hc, Hx. reflexivity.
Qed.

Lemma buildSegments_canvas (settings : Settings) (random : nat -> R)
  (st : AppState) :
  canvasRef (buildSegments settings random st) = canvasRef st.
Proof.
  unfold buildSegments.
  destruct (canvasRef st) as [canvas|] eqn:Hc; [|assumption].
  destruct (context2d canvas); [reflexivity|assumption].
Qed.

Lemma tick_growIndex_le (settings : Settings) (bg : ThemeBG)
  (random : nat -> R) (st : AppState) :
  0 <= growSpeed settings ->
  growIndexRef st <= growIndexRef (tick settings bg random st).
Proof.
  intro Hs. unfold tick. cbv zeta.
  cbn [growIndexRef setRaf requestAnimationFrame snd setWindTime
       canvasRef].
  destruct (canvasRef st) as [canvas|];
    [|cbn [growIndexRef setWindTime]; lra].
  destruct (context2d canvas); [|cbn [growIndexRef setWindTime]; lra].
  unfold drawOnCanvas, drawSegmentsFrame. cbv zeta.
  cbn [growIndexRef snd segmentsRef setWindTime].
  unfold advanceGrow. cbv zeta.
  destruct (growAnimation settings && _); lra.
Qed.

Lemma drawTreeOnce_growIndex (settings : Settings) (bg : ThemeBG)
  (random : nat -> R) (st : AppState) :
  hasContext st ->
  segmentsRef (drawTreeOnce settings bg random st)
    = segmentsRef (buildSegments settings random st)
  /\ growIndexRef (drawTreeOnce settings bg random st)
     = INR (List.length (segmentsRef (drawTreeOnce settings bg random st))).
Proof.
  intros (canvas & ctx & Hc & Hx). unfold drawTreeOnce. cbv zeta.
  rewrite buildSegments_canvas, Hc, Hx.
  unfold drawOnCanvas, drawSegmentsFrame. cbv zeta.
  cbn [growIndexRef segmentsRef snd setGrowIndex].
  split; [reflexivity|].
  apply advanceGrow_reached. lra.
Qed.

Lemma buildSegments_growIndex_cases (settings : Settings)
  (random : nat -> R) (st : AppState) :
  growIndexRef (buildSegments settings random st) = growIndexRef st
  \/ growIndexRef (buildSegments settings random st) = 0.
Proof.
  unfold buildSegments.
  destruct (canvasRef st) as [canvas|]; [|now left].
  destruct (context2d canvas); [now right|now left].
Qed.

(** An update leaves the counter as it was or, when a dependency of the
    rebuild effect changed, at zero. *)
Lemma updateEffects_growIndex_cases (old new : Settings)
  (oldBg newBg : ThemeBG) (random : nat -> R) (st : AppState) :
  growIndexRef (updateEffects old new oldBg newBg random st)
    = growIndexRef st
  \/ (shapeDepsSame old new = false
      /\ growIndexRef (updateEffects old new oldBg newBg random st) = 0).
Proof.
  destruct (shapeDepsSame old new) eqn:Hs.
  - left.
    destruct (updateEffects_no_rebuild old new oldBg newBg random st Hs)
      as (_ & _ & _ & H & _).
    congruence.
  - unfold updateEffects. cbv zeta. rewrite Hs.
    destruct (loopDepsSame old new oldBg newBg).
    + destruct (buildSegments_growIndex_cases new random st) as [H|H];
        [left; exact H | right; split; [reflexivity|exact H]].
    + destruct (startLoop_same (buildSegments new random (stopLoop st)))
        as (_ & _ & _ & H1 & _).
      destruct (stopLoop_same st) as (_ & _ & _ & H2 & _).
      destruct (buildSegments_growIndex_cases new random (stopLoop st))
        as [H|H].
      * left. congruence.
      * right. split; [reflexivity|congruence].
Qed.

(** C7.  Restarting the loop, by [startLoop] or through an update of the
    settings that changes no dependency of the rebuild effect, leaves the
    wind time, the reveal counter and the segment list unchanged.  A
    rebuild sets the counter to zero, and an update changes the counter
    only by such a rebuild; stopping the loop and exporting leave it
    alone and a frame at a grow speed that is not negative never lowers
    it.  The draw action rebuilds and leaves the counter at the length
    of the rebuilt list. *)
Theorem restart_keeps_animation_state (old new : Settings)
  (oldBg newBg : ThemeBG) (random : nat -> R) (st : AppState) :
  (windTimeRef (startLoop st) = windTimeRef st
   /\ growIndexRef (startLoop st) = growIndexRef st
   /\ segmentsRef (startLoop st) = segmentsRef st)
  /\ (shapeDepsSame old new = true ->
      windTimeRef (updateEffects old new oldBg newBg random st)
        = windTimeRef st
      /\ growIndexRef (updateEffects old new oldBg newBg random st)
         = growIndexRef st
      /\ segmentsRef (updateEffects old new oldBg newBg random st)
         = segmentsRef st)
  /\ (hasContext st -> growIndexRef (buildSegments new random st) = 0)
  /\ (hasContext st -> shapeDepsSame old new = false ->
      growIndexRef (updateEffects old new oldBg newBg random st) = 0)
  /\ (growIndexRef (updateEffects old new oldBg newBg random st)
        <> growIndexRef st ->
      shapeDepsSame old new = false
      /\ growIndexRef (updateEffects old new oldBg newBg random st) = 0)
  /\ growIndexRef (stopLoop st) = growIndexRef st
  /\ growIndexRef (downloadPNG st) = growIndexRef st
  /\ (0 <= growSpeed new ->
      growIndexRef st <= growIndexRef (tick new newBg random st))
  /\ (hasContext st ->
      segmentsRef (drawTreeOnce new newBg random st)
        = segmentsRef (buildSegments new random st)
      /\ growIndexRef (drawTreeOnce new newBg random st)
         = INR (List.length
                  (segmentsRef (drawTreeOnce new newBg random st)))).
Proof.
  assert (Hshape : hasContext st -> shapeDepsSame old new = false ->
            growIndexRef (updateEffects old new oldBg newBg random st) = 0).
  { intros Hc Hs. unfold updateEffects. cbv zeta. rewrite Hs.
    destruct (loopDepsSame old new oldBg newBg).
    - now apply buildSegments_growIndex.
    - destruct (startLoop_same
                  (buildSegments new random (stopLoop st)))
        as (_ & _ & _ & H & _).
      rewrite <- H. apply buildSegments_growIndex.
      apply (sameButLoop_hasContext st); [apply stopLoop_same|exact Hc]. }
  split.
  { destruct (startLoop_same st) as (_ & H1 & H2 & H3 & _).
    repeat split; congruence. }
  split.
  { intro Hs.
    destruct (updateEffects_no_rebuild old new oldBg newBg random st Hs)
      as (_ & H1 & H2 & H3 & _).
    repeat split; congruence. }
  split; [apply buildSegments_growIndex|].
  split; [exact Hshape|].
  split.
  { intro Hne.
    destruct (updateEffects_growIndex_cases old new oldBg newBg random st)
      as [H|H]; [contradiction|exact H]. }
  split.
  { destruct (stopLoop_same st) as (_ & _ & _ & H & _). congruence. }
  split.
  { unfold downloadPNG. destruct (canvasRef st); reflexivity. }
  split; [apply tick_growIndex_le|].
  apply drawTreeOnce_growIndex.
Qed.

(** C7 two frames into the default animation, the counter at 160 and
    the wind time at 0.048: a restart, by [startLoop] or by a change of
    the wind strength, keeps both; a rebuild sets the counter to 0; the
    draw action leaves it at the length of the rebuilt list. *)
Lemma restart_keeps_animation_state_witness :
  growIndexRef stateGrowing = 160
  /\ (windTimeRef (startLoop stateGrowing) = 48 / 1000
      /\ growIndexRef (startLoop stateGrowing) = 160)
  /\ (windTimeRef
        (updateEffects initialSettings
           (updateWindStrength 8 initialSettings) night night
           (fun _ => 1 / 2) stateGrowing) = 48 / 1000
      /\ growIndexRef
           (updateEffects initialSettings
              (updateWindStrength 8 initialSettings) night night
              (fun _ => 1 / 2) stateGrowing) = 160)
  /\ growIndexRef
       (buildSegments (updateWindStrength 8 initialSettings)
          (fun _ => 1 / 2) stateGrowing) = 0
  /\ growIndexRef
       (drawTreeOnce (updateWindStrength 8 initialSettings) night
          (fun _ => 1 / 2) stateGrowing)
     = INR (List.length
              (segmentsRef
                 (drawTreeOnce (updateWindStrength 8 initialSettings)
                    night (fun _ => 1 / 2) stateGrowing))).
Proof.
  assert (Hc : hasContext stateGrowing).
  { exists canvas1000x650. eexists. split; reflexivity. }
  destruct (restart_keeps_animation_state initialSettings
              (updateWindStrength 8 initialSettings) night night
              (fun _ => 1 / 2) stateGrowing)
    as ((Hw & Hg & _) & Hu & Hb & _ & _ & _ & _ & _ & Hd).
  destruct (Hu (shapeDepsSame_windStrength 8 initialSettings))
    as (Hu1 & Hu2 & _).
  destruct (Hd Hc) as (_ & Hd2).
  split; [reflexivity|].
  split; [split; [exact Hw|exact Hg]|].
  split; [split; [exact Hu1|exact Hu2]|].
  split; [exact (Hb Hc)|exact Hd2].
Defined.

(* ------------------------------------------------------------------ *)
(** ** A change of wind strength *)

Lemma cos_not_1 (d : R) : d <> 0 -> Rabs d < 2 * PI -> cos d <> 1.
Proof.
  intros Hd Hb.
  assert (Hpos : forall e, 0 < e -> e < 2 * PI -> cos e < 1).
  { intros e H0 H1.
    replace e with (2 * (e / 2)) by field.
    rewrite cos_2a_sin.
    assert (0 < sin (e / 2)) by (apply sin_gt_0; lra).
    nra. }
  destruct (Rlt_dec 0 d) as [Hlt|Hge].
  - rewrite Rabs_pos_eq in Hb by lra.
    pose proof (Hpos d Hlt Hb). lra.
  - assert (Hneg : d < 0) by lra.
    rewrite Rabs_left in Hb by assumption.
    rewrite <- cos_neg.
    assert (0 < - d) by lra.
    pose proof (Hpos (- d) H Hb). lra.
Qed.

(** Turning a segment of non-zero length by two angles that differ by
    less than a full turn gives two different end points. *)
Lemma turned_ends_differ (x y len b w w' : R) :
  len <> 0 -> w - w' <> 0 -> Rabs (w - w') < 360 ->
  (x + len * cos (b + w * PI / 180), y - len * sin (b + w * PI / 180))
  <> (x + len * cos (b + w' * PI / 180),
      y - len * sin (b + w' * PI / 180)).
Proof.
  intros Hlen Hw Hb Heq. injection Heq as Hx Hy.
  set (A := b + w * PI / 180) in *.
  set (B := b + w' * PI / 180) in *.
  assert (Hc : cos A = cos B).
  { apply Rmult_eq_reg_l with len; [|assumption].
    apply Rplus_eq_reg_l with x. exact Hx. }
  assert (Hs : sin A = sin B).
  { apply Rmult_eq_reg_l with len; [|assumption].
    apply Ropp_eq_reg. apply Rplus_eq_reg_l with y. exact Hy. }
  assert (H1 : cos (A - B) = 1).
  { rewrite cos_minus, Hc, Hs.
    pose proof (sin2_cos2 B) as H. unfold Rsqr in H. lra. }
  pose proof PI_RGT_0 as Hpi.
  apply (cos_not_1 (A - B)); [| |exact H1].
  - unfold A, B. intro H0.
    apply Hw. apply Rmult_eq_reg_r with (PI / 180); lra.
  - unfold A, B.
    replace (b + w * PI / 180 - (b + w' * PI / 180))
      with ((w - w') * (PI / 180)) by field.
    rewrite Rabs_mult, (Rabs_pos_eq (PI / 180)) by lra.
    pose proof (Rabs_pos (w - w')). nra.
Qed.

Lemma segment_length_nonzero (s : Segment) :
  x1 s <> x2 s \/ y1 s <> y2 s ->
  sqrt ((x2 s - x1 s) * (x2 s - x1 s) + (y2 s - y1 s) * (y2 s - y1 s))
  <> 0.
Proof.
  intros H H0.
  fold (Rsqr (x2 s - x1 s)) in H0. fold (Rsqr (y2 s - y1 s)) in H0.
  apply sqrt_eq_0 in H0;
    [|apply Rplus_le_le_0_compat; apply Rle_0_sqr].
  apply Rplus_sqr_eq_0 in H0. destruct H0 as [Ha Hb].
  destruct H; lra.
Qed.

(** When the wind strength changes, the sway of a segment with non-zero
    total depth changes exactly when wind is on, the sine of the wind
    time is not zero and the segment is not at full depth. *)
Lemma getWindAngle_windStrength (old : Settings) (value t dl td : R) :
  td <> 0 ->
  getWindAngle (updateWindStrength value old) t dl td
    <> getWindAngle old t dl td
  <-> animateWind old = true /\ sin t <> 0 /\ dl <> td
      /\ value <> windStrength old.
Proof.
  intro Htd. unfold getWindAngle, updateWindStrength. simpl.
  assert (Hlf : dl <> td <-> 1 - dl / td <> 0).
  { split.
    - intros Hne H0. apply Hne.
      assert (dl / td = 1) by lra.
      apply (f_equal (fun z => z * td)) in H.
      unfold Rdiv in H. rewrite Rmult_assoc, Rinv_l in H by assumption.
      lra.
    - intros Hne Heq. apply Hne. rewrite Heq.
      unfold Rdiv. rewrite Rinv_r by assumption. lra. }
  destruct (animateWind old); simpl.
  - split.
    + intro Hne. split; [reflexivity|].
      split; [intro H0; apply Hne; rewrite H0; ring|].
      split.
      * apply Hlf. intro H0. apply Hne. rewrite H0. ring.
      * intro H0. apply Hne. rewrite H0. reflexivity.
    + intros (_ & Hs & Hd & Hv) Heq.
      apply Hlf in Hd.
      assert (H : sin t * (1 - dl / td) * (value - windStrength old) = 0)
        by lra.
      apply Rmult_integral in H. destruct H as [H|H]; [|lra].
      apply Rmult_integral in H. destruct H; contradiction.
  - split; [intro H; now contradiction H|].
    intros (H & _). discriminate.
Qed.

Lemma drawSegment_windStrength (old : Settings) (value t : R)
  (s : Segment) :
  getWindAngle (updateWindStrength value old) t (depthLeft s)
    (totalDepth s)
  = getWindAngle old t (depthLeft s) (totalDepth s) ->
  renderedEnd (updateWindStrength value old) t s = renderedEnd old t s
  /\ drawSegment (updateWindStrength value old) t s = drawSegment old t s.
Proof.
  intro H.
  assert (He : renderedEnd (updateWindStrength value old) t s
               = renderedEnd old t s).
  { unfold renderedEnd. cbv zeta. rewrite H. reflexivity. }
  split; [exact He|].
  unfold drawSegment. cbv zeta. rewrite He. reflexivity.
Qed.

Lemma drawLoop_windStrength (old : Settings) (value t limit : R) :
  forall segs i,
    (forall s, In s segs ->
       getWindAngle (updateWindStrength value old) t (depthLeft s)
         (totalDepth s)
       = getWindAngle old t (depthLeft s) (totalDepth s)) ->
    drawLoop (updateWindStrength value old) t limit i segs
    = drawLoop old t limit i segs.
Proof.
  induction segs as [|s rest IH]; intros i H; [reflexivity|].
  cbn [drawLoop].
  destruct (Rlt_dec (INR i) limit); [|reflexivity].
  rewrite IH by (intros; apply H; now right).
  destruct (drawSegment_windStrength old value t s) as [_ Hd];
    [apply H; now left|].
  rewrite Hd. reflexivity.
Qed.

Lemma tick_canvas_no_context (settings : Settings) (bg : ThemeBG)
  (random : nat -> R) (st : AppState) :
  ~ hasContext st -> canvasRef (tick settings bg random st) = canvasRef st.
Proof.
  intro H. unfold tick. cbv zeta.
  cbn [canvasRef setRaf requestAnimationFrame snd setWindTime].
  destruct (canvasRef st) as [canvas|] eqn:Hc;
    [|cbn [canvasRef setWindTime]; assumption].
  destruct (context2d canvas) as [ctx|] eqn:Hx.
  - exfalso. apply H. exists canvas, ctx. split; assumption.
  - cbn [canvasRef setWindTime]. assumption.
Qed.

(** With wind off, the frame after a change of wind strength is the
    frame there would have been without the change. *)
Lemma tick_canvas_wind_off (old : Settings) (value : R) (bg : ThemeBG)
  (random : nat -> R) (st st' : AppState) :
  animateWind old = false -> sameButLoop st st' ->
  canvasRef (tick (updateWindStrength value old) bg random st')
  = canvasRef (tick old bg random st).
Proof.
  intros Hw (H1 & H2 & H3 & H4 & H5 & _).
  destruct (canvasRef st) as [canvas|] eqn:Hc.
  - destruct (context2d canvas) as [ctx|] eqn:Hx.
    + rewrite (tick_canvas _ _ _ st' canvas ctx) by congruence.
      rewrite (tick_canvas _ _ _ st canvas ctx) by assumption.
      f_equal. f_equal.
      unfold drawSegmentsFrame. cbv zeta.
      cbn [fst setWindTime windTimeRef segmentsRef growIndexRef
           randomCalls].
      rewrite <- H2, <- H3, <- H4, <- H5.
      rewrite drawLoop_windStrength; [reflexivity|].
      intros s _. unfold getWindAngle, updateWindStrength. simpl.
      rewrite Hw. reflexivity.
    + rewrite !tick_canvas_no_context; [congruence| |];
        intros (c & x & Hc' & Hx'); congruence.
  - rewrite !tick_canvas_no_context; [congruence| |];
      intros (c & x & Hc' & Hx'); congruence.
Qed.

(** C6, as the code has it.  A change of the wind strength alone runs no
    rebuild: the segment list, the reveal counter and the wind time are
    what they were.  On the next frame the sway of a segment with
    non-zero total depth changes exactly when wind animation is on, the
    sine of the wind time is not zero and the segment is not at full
    depth; where the sway does not change the segment is drawn as before,
    and where it changes by less than a full turn the end point of a
    segment of non-zero length is drawn elsewhere.  With wind animation
    off the whole frame is the one there would have been without the
    change. *)
Theorem windStrength_change_effect (old : Settings) (value : R)
  (bg : ThemeBG) (random : nat -> R) (st : AppState) :
  let new := updateWindStrength value old in
  let st' := updateEffects old new bg bg random st in
  (segmentsRef st' = segmentsRef st
   /\ growIndexRef st' = growIndexRef st
   /\ windTimeRef st' = windTimeRef st)
  /\ (forall t s,
        totalDepth s <> 0 ->
        (getWindAngle new t (depthLeft s) (totalDepth s)
           <> getWindAngle old t (depthLeft s) (totalDepth s)
         <-> animateWind old = true /\ sin t <> 0
             /\ depthLeft s <> totalDepth s
             /\ value <> windStrength old))
  /\ (forall t s,
        getWindAngle new t (depthLeft s) (totalDepth s)
          = getWindAngle old t (depthLeft s) (totalDepth s) ->
        renderedEnd new t s = renderedEnd old t s
        /\ drawSegment new t s = drawSegment old t s)
  /\ (forall t s,
        x1 s <> x2 s \/ y1 s <> y2 s ->
        getWindAngle new t (depthLeft s) (totalDepth s)
          - getWindAngle old t (depthLeft s) (totalDepth s) <> 0 ->
        Rabs (getWindAngle new t (depthLeft s) (totalDepth s)
              - getWindAngle old t (depthLeft s) (totalDepth s)) < 360 ->
        renderedEnd new t s <> renderedEnd old t s)
  /\ (animateWind old = false ->
      canvasRef (tick new bg random st') = canvasRef (tick old bg random st)).
Proof.
  cbv zeta.
  pose proof (updateEffects_no_rebuild old (updateWindStrength value old)
                bg bg random st (shapeDepsSame_windStrength value old))
    as Hsame.
  split.
  { destruct Hsame as (_ & H1 & H2 & H3 & _). repeat split; congruence. }
  split.
  { intros t s Htd. now apply getWindAngle_windStrength. }
  split.
  { intros t s H. now apply drawSegment_windStrength. }
  split.
  { intros t s Hlen Hd Hb. unfold renderedEnd. cbv zeta.
    apply turned_ends_differ; [|assumption|assumption].
    now apply segment_length_nonzero. }
  intro Hw. now apply tick_canvas_wind_off.
Qed.

(** C6 at the default settings, wind strength raised from 4 to 8, at wind
    time 1, for a segment with 5 of 11 levels left: its end point
    moves. *)
Lemma windStrength_change_effect_witness :
  let s := {| x1 := 500; y1 := 300; x2 := 500; y2 := 280; thick := 1;
              depthLeft := 5; totalDepth := 11 |} in
  renderedEnd (updateWindStrength 8 initialSettings) 1 s
  <> renderedEnd initialSettings 1 s.
Proof.
  cbv zeta.
  destruct (windStrength_change_effect initialSettings 8 night
              (fun _ => 0) (initialState (Some canvas1000x650)))
    as (_ & _ & _ & H & _).
  assert (Hsin : 0 < sin 1 <= 1).
  { split; [|apply SIN_bound].
    apply sin_gt_0; [lra|]. pose proof PI2_1. lra. }
  apply H.
  - right. simpl. lra.
  - unfold getWindAngle. simpl. nra.
  - unfold getWindAngle. simpl. apply Rabs_def1; nra.
Defined.

(** Against C6 as stated: with wind animation off, raising the wind
    strength from 4 to 8 after the tree has been built on the canvas of
    the reference deployment changes no end point, and the next frame
    paints the canvas exactly as it would have without the change. *)
Lemma windStrength_change_same_frame :
  let old := calmSettings in
  let new := updateWindStrength 8 old in
  let st := mountEffects old (fun _ => 0)
              (initialState (Some canvas1000x650)) in
  let st' := updateEffects old new night night (fun _ => 0) st in
  windStrength new <> windStrength old
  /\ (forall t s, renderedEnd new t s = renderedEnd old t s)
  /\ canvasRef (tick new night (fun _ => 0) st')
     = canvasRef (tick old night (fun _ => 0) st).
Proof.
  cbv zeta. split; [simpl; lra|]. split.
  - intros t s. apply drawSegment_windStrength. reflexivity.
  - apply tick_canvas_wind_off; [reflexivity|].
    apply updateEffects_no_rebuild. apply shapeDepsSame_windStrength.
Qed.

(* ================================================================== *)
(** * Further properties of the builder *)

(** X1.  [collect] calls [Math.random] exactly once for every segment it
    pushes: the count of calls grows by the length of the list. *)
Theorem collect_random_calls (settings : Settings) (random : nat -> R) :
  forall d x y len a th k,
    snd (collect settings random x y len a d th k)
    = (k + List.length (fst (collect settings random x y len a d th k)))%nat.
Proof.
  apply (depth_ind (fun d => forall x y len a th k,
    snd (collect settings random x y len a d th k)
    = (k + List.length
             (fst (collect settings random x y len a d th k)))%nat)).
  - intros d Hd x y len a th k.
    rewrite collect_stop by now left. simpl. lia.
  - intros d Hd IH x y len a th k.
    destruct (Rlt_dec len 2) as [Hl|Hl].
    + rewrite collect_stop by now right. simpl. lia.
    + rewrite collect_push by (intros [?|?]; contradiction).
      cbv zeta. cbn [fst snd List.length]. rewrite length_app.
      rewrite IH. rewrite (IH _ _ _ _ _ (S k)). lia.
Qed.

(** A call with a whole number [n] of levels left pushes at most
    [2 ^ n - 1] segments. *)
Lemma collect_length_whole (settings : Settings) (random : nat -> R) :
  forall n x y len a th k,
    (List.length (fst (collect settings random x y len a (INR n) th k)) + 1
     <= 2 ^ n)%nat.
Proof.
  induction n as [|n IH]; intros x y len a th k.
  - rewrite collect_stop by (left; simpl; lra). simpl. lia.
  - destruct (Rlt_dec len 2) as [Hl|Hl].
    + rewrite collect_stop by now right. simpl.
      pose proof (Nat.pow_nonzero 2 n). lia.
    + pose proof (pos_INR n) as Hn.
      rewrite collect_push by (rewrite S_INR; intros [?|?]; lra).
      cbv zeta. cbn [fst List.length]. rewrite length_app.
      replace (INR (S n) - 1) with (INR n) by (rewrite S_INR; ring).
      set (e := (a + (random k * 2 - 1) * randomness settings) * PI / 180).
      pose proof (IH (x + len * cos e) (y - len * sin e)
                    (len * shrink settings) (a - angle settings)
                    (th * (75 / 100)) (S k)) as H1.
      set (l := collect settings random (x + len * cos e)
                  (y - len * sin e) (len * shrink settings)
                  (a - angle settings) (INR n) (th * (75 / 100)) (S k))
        in *.
      pose proof (IH (x + len * cos e) (y - len * sin e)
                    (len * shrink settings) (a + angle settings)
                    (th * (75 / 100)) (snd l)) as H2.
      rewrite Nat.pow_succ_r'. lia.
Qed.

(** X2.  For a whole depth [n] the tree has at most [2 ^ n - 1] segments,
    and it has exactly that many, none of its branches being cut short,
    if and only if the length is still at least 2 at every one of the [n]
    levels: [len * shrink ^ j >= 2] for every [j < n]. *)
Theorem collect_full_tree (settings : Settings) (random : nat -> R) :
  forall n x y len a th k,
    (List.length (fst (collect settings random x y len a (INR n) th k)) + 1
     <= 2 ^ n)%nat
    /\ ((List.length (fst (collect settings random x y len a (INR n) th k))
         + 1 = 2 ^ n)%nat
        <-> forall j, (j < n)%nat -> 2 <= len * shrink settings ^ j).
Proof.
  intros n x y len a th k. split; [apply collect_length_whole|].
  revert x y len a th k.
  induction n as [|n IH]; intros x y len a th k.
  - rewrite collect_stop by (left; simpl; lra). simpl.
    split; [intros _ j Hj; lia|reflexivity].
  - pose proof (pos_INR n) as Hn.
    destruct (Rlt_dec len 2) as [Hl|Hl].
    + rewrite collect_stop by now right. simpl. split.
      * intro H. pose proof (Nat.pow_nonzero 2 n).
        assert (2 <= 2 ^ n)%nat by lia.
        assert (2 ^ n = 1)%nat by lia. lia.
      * intro H. specialize (H 0%nat). simpl in H.
        assert (0 < S n)%nat by lia. apply H in H0. lra.
    + rewrite collect_push by (rewrite S_INR; intros [?|?]; lra).
      cbv zeta. cbn [fst List.length]. rewrite length_app.
      replace (INR (S n) - 1) with (INR n) by (rewrite S_INR; ring).
      set (e := (a + (random k * 2 - 1) * randomness settings) * PI / 180).
      pose proof (IH (x + len * cos e) (y - len * sin e)
                    (len * shrink settings) (a - angle settings)
                    (th * (75 / 100)) (S k)) as I1.
      pose proof (collect_length_whole settings random n
                    (x + len * cos e) (y - len * sin e)
                    (len * shrink settings) (a - angle settings)
                    (th * (75 / 100)) (S k)) as B1.
      set (l := collect settings random (x + len * cos e)
                  (y - len * sin e) (len * shrink settings)
                  (a - angle settings) (INR n) (th * (75 / 100)) (S k))
        in *.
      pose proof (IH (x + len * cos e) (y - len * sin e)
                    (len * shrink settings) (a + angle settings)
                    (th * (75 / 100)) (snd l)) as I2.
      pose proof (collect_length_whole settings random n
                    (x + len * cos e) (y - len * sin e)
                    (len * shrink settings) (a + angle settings)
                    (th * (75 / 100)) (snd l)) as B2.
      set (r := collect settings random (x + len * cos e)
                  (y - len * sin e) (len * shrink settings)
                  (a + angle settings) (INR n) (th * (75 / 100)) (snd l))
        in *.
      rewrite Nat.pow_succ_r'.
      assert (Hshift : (forall j, (j < n)%nat ->
                          2 <= len * shrink settings * shrink settings ^ j)
                       <-> (forall j, (0 < j < S n)%nat ->
                              2 <= len * shrink settings ^ j)).
      { split.
        - intros H j [Hj0 Hj]. destruct j as [|j]; [lia|].
          simpl. rewrite <- Rmult_assoc. apply H. lia.
        - intros H j Hj. rewrite Rmult_assoc.
          change (shrink settings * shrink settings ^ j)
            with (shrink settings ^ S j).
          apply H. lia. }
      split.
      * intro H.
        assert (H1 : (List.length (fst l) + 1 = 2 ^ n)%nat) by lia.
        assert (H2 : (List.length (fst r) + 1 = 2 ^ n)%nat) by lia.
        destruct I1 as [I1a _]. pose proof (I1a H1) as H3.
        intros j Hj.
        destruct j as [|j]; [simpl; lra|].
        apply Hshift; [assumption|lia].
      * intro H.
        assert (Hc : forall j, (j < n)%nat ->
                       2 <= len * shrink settings * shrink settings ^ j).
        { apply Hshift. intros j [? ?]. apply H. assumption. }
        destruct I1 as [_ I1b]. destruct I2 as [_ I2b].
        pose proof (I1b Hc). pose proof (I2b Hc). lia.
Qed.

(** The default settings build the full tree of depth 11: 2047
    segments. *)
Lemma collect_full_tree_witness :
  S (List.length
       (fst (collect initialSettings (fun _ => 1 / 2) 500 630 150 90
               (INR 11) 10 0))) = (2 ^ 11)%nat.
Proof.
  rewrite <- Nat.add_1_r.
  apply (collect_full_tree initialSettings (fun _ => 1 / 2) 11).
  intros j Hj. cbn [shrink initialSettings].
  do 11 (destruct j as [|j]; [simpl; lra|]). lia.
Defined.

(** X3.  The segments of a build hang together: the root starts at the
    point the build starts from, and every other segment starts exactly
    where the segment above it in the tree of calls ends. *)
Theorem collectTree_attached (settings : Settings) (random : nat -> R) :
  forall d x y len a th k,
    attached x y (fst (collectTree settings random x y len a d th k)).
Proof.
  apply (depth_ind (fun d => forall x y len a th k,
    attached x y (fst (collectTree settings random x y len a d th k)))).
  - intros d Hd x y len a th k. rewrite collectTree_eq.
    destruct (Rle_dec d 0); [exact I|contradiction].
  - intros d Hd IH x y len a th k. rewrite collectTree_eq.
    destruct (Rle_dec d 0); [contradiction|].
    destruct (Rlt_dec len 2); [exact I|].
    cbv zeta. cbn [fst attached x1 y1 x2 y2].
    split; [reflexivity|]. split; [reflexivity|]. split; apply IH.
Qed.

(** X4.  A segment pushed [j] levels below a call has [j] levels fewer
    left, the thickness of the call times [0.75 ^ j], and the length of
    the call times [shrink ^ j] as the distance between its two end
    points, whatever direction the random perturbation gave it. *)
Theorem collect_levels_geometry (settings : Settings) (random : nat -> R) :
  forall d x y len a th k,
    Forall (fun s =>
              exists j : nat,
                depthLeft s = d - INR j
                /\ thick s = th * (75 / 100) ^ j
                /\ (x2 s - x1 s) * (x2 s - x1 s)
                   + (y2 s - y1 s) * (y2 s - y1 s)
                   = (len * shrink settings ^ j)
                     * (len * shrink settings ^ j))
      (fst (collect settings random x y len a d th k)).
Proof.
  apply (depth_ind (fun d => forall x y len a th k,
    Forall (fun s =>
              exists j : nat,
                depthLeft s = d - INR j
                /\ thick s = th * (75 / 100) ^ j
                /\ (x2 s - x1 s) * (x2 s - x1 s)
                   + (y2 s - y1 s) * (y2 s - y1 s)
                   = (len * shrink settings ^ j)
                     * (len * shrink settings ^ j))
      (fst (collect settings random x y len a d th k)))).
  - intros d Hd x y len a th k.
    rewrite collect_stop by now left. constructor.
  - intros d Hd IH x y len a th k.
    destruct (Rlt_dec len 2) as [Hl|Hl].
    { rewrite collect_stop by now right. constructor. }
    rewrite collect_push by (intros [?|?]; contradiction).
    cbv zeta. cbn [fst].
    set (e := (a + (random k * 2 - 1) * randomness settings) * PI / 180).
    assert (Hchild : forall s,
      (exists j : nat,
         depthLeft s = d - 1 - INR j
         /\ thick s = th * (75 / 100) * (75 / 100) ^ j
         /\ (x2 s - x1 s) * (x2 s - x1 s) + (y2 s - y1 s) * (y2 s - y1 s)
            = (len * shrink settings * shrink settings ^ j)
              * (len * shrink settings * shrink settings ^ j)) ->
      exists j : nat,
        depthLeft s = d - INR j
        /\ thick s = th * (75 / 100) ^ j
        /\ (x2 s - x1 s) * (x2 s - x1 s) + (y2 s - y1 s) * (y2 s - y1 s)
           = (len * shrink settings ^ j) * (len * shrink settings ^ j)).
    { intros s (j & H1 & H2 & H3). exists (S j).
      rewrite S_INR. simpl pow.
      split; [lra|]. split; [rewrite H2; ring|].
      rewrite H3. ring. }
    constructor.
    + exists 0%nat. cbn [depthLeft thick x1 y1 x2 y2]. simpl.
      split; [lra|]. split; [lra|].
      pose proof (sin2_cos2 e) as Hsc. unfold Rsqr in Hsc.
      replace (x + len * cos e - x) with (len * cos e) by ring.
      replace (y - len * sin e - y) with (- (len * sin e)) by ring.
      replace (len * cos e * (len * cos e)
               + - (len * sin e) * - (len * sin e))
        with (len * len * (sin e * sin e + cos e * cos e)) by ring.
      rewrite Hsc. ring.
    + apply Forall_app. split;
        (eapply Forall_impl; [exact Hchild|apply IH]).
Qed.

(** With randomness 0 two runs of [collect] from the same arguments push
    the same list of segments, whatever [Math.random] returns. *)
Lemma collect_ignores_random (settings : Settings)
  (random random' : nat -> R) :
  randomness settings = 0 ->
  forall d x y len a th k k',
    fst (collect settings random x y len a d th k)
    = fst (collect settings random' x y len a d th k').
Proof.
  intro H0.
  apply (depth_ind (fun d => forall x y len a th k k',
    fst (collect settings random x y len a d th k)
    = fst (collect settings random' x y len a d th k'))).
  - intros d Hd x y len a th k k'.
    rewrite !collect_stop by now left. reflexivity.
  - intros d Hd IH x y len a th k k'.
    destruct (Rlt_dec len 2) as [Hl|Hl].
    { rewrite !collect_stop by now right. reflexivity. }
    rewrite !collect_push by (intros [?|?]; contradiction).
    cbv zeta. cbn [fst]. rewrite H0.
    replace ((random k * 2 - 1) * 0) with 0 by ring.
    replace ((random' k' * 2 - 1) * 0) with 0 by ring.
    f_equal. f_equal; apply IH.
Qed.

(* ================================================================== *)
(** * Further properties of the frame renderer *)

Lemma sqrt_sum_squares_pos (x y : R) :
  0 < x ->
  sqrt (x * x + y * y) = x * sqrt (1 + (y / x)²).
Proof.
  intro Hx.
  replace (x * x + y * y) with (x * x * (1 + (y / x)²))
    by (unfold Rsqr; field; lra).
  rewrite sqrt_mult.
  - rewrite sqrt_square by lra. reflexivity.
  - nra.
  - pose proof (Rle_0_sqr (y / x)). lra.
Qed.

Lemma sqrt_one_plus_sqr_pos (z : R) : 0 < sqrt (1 + z²).
Proof.
  apply sqrt_lt_R0. pose proof (Rle_0_sqr z). lra.
Qed.

(** [Math_atan2 y x] is the direction of the point [(x, y)]: the point
    is its distance from the origin times the cosine and the sine of
    that angle. *)
Lemma Math_atan2_polar (y x : R) :
  sqrt (x * x + y * y) * cos (Math_atan2 y x) = x
  /\ sqrt (x * x + y * y) * sin (Math_atan2 y x) = y.
Proof.
  unfold Math_atan2.
  destruct (total_order_T x 0) as [[Hx|Hx]|Hx].
  - (* x < 0 *)
    assert (Hs : sqrt (x * x + y * y) = - x * sqrt (1 + (y / x)²)).
    { replace (x * x + y * y) with (- x * - x + - y * - y) by ring.
      rewrite sqrt_sum_squares_pos by lra.
      replace (- y / - x) with (y / x) by (field; lra). reflexivity. }
    pose proof (sqrt_one_plus_sqr_pos (y / x)) as Hq.
    rewrite Hs.
    destruct (Rlt_dec y 0).
    + unfold Rminus. rewrite cos_plus, sin_plus, cos_neg, sin_neg.
      rewrite cos_PI, sin_PI, cos_atan, sin_atan.
      split; field; lra.
    + rewrite neg_cos, neg_sin, cos_atan, sin_atan.
      split; field; lra.
  - (* x = 0 *)
    subst x.
    replace (0 * 0 + y * y) with (y * y) by ring.
    destruct (total_order_T y 0) as [[Hy|Hy]|Hy].
    + replace (y * y) with (- y * - y) by ring.
      rewrite sqrt_square by lra.
      rewrite cos_neg, sin_neg, cos_PI2, sin_PI2. split; ring.
    + subst y. rewrite Rmult_0_l, sqrt_0. split; ring.
    + rewrite sqrt_square by lra.
      rewrite cos_PI2, sin_PI2. split; ring.
  - (* 0 < x *)
    rewrite sqrt_sum_squares_pos by lra.
    pose proof (sqrt_one_plus_sqr_pos (y / x)) as Hq.
    rewrite cos_atan, sin_atan. split; field; lra.
Qed.

(** X5.  A segment whose sway angle is 0 is drawn exactly to its stored
    end point; so is every segment when wind animation is off, and the
    trunk base at all times. *)
Theorem renderedEnd_without_sway (settings : Settings) (t : R)
  (s : Segment) :
  (getWindAngle settings t (depthLeft s) (totalDepth s) = 0 ->
   renderedEnd settings t s = (x2 s, y2 s))
  /\ (animateWind settings = false ->
      renderedEnd settings t s = (x2 s, y2 s))
  /\ (depthLeft s = totalDepth s -> totalDepth s <> 0 ->
      renderedEnd settings t s = (x2 s, y2 s)).
Proof.
  assert (H : getWindAngle settings t (depthLeft s) (totalDepth s) = 0 ->
              renderedEnd settings t s = (x2 s, y2 s)).
  { intro H0. unfold renderedEnd. cbv zeta. rewrite H0.
    replace (Math_atan2 (- (y2 s - y1 s)) (x2 s - x1 s) + 0 * PI / 180)
      with (Math_atan2 (- (y2 s - y1 s)) (x2 s - x1 s)) by (unfold Rdiv; ring).
    destruct (Math_atan2_polar (- (y2 s - y1 s)) (x2 s - x1 s))
      as [Hc Hs].
    replace (- (y2 s - y1 s) * - (y2 s - y1 s))
      with ((y2 s - y1 s) * (y2 s - y1 s)) in Hc, Hs by ring.
    rewrite Hc, Hs. f_equal; ring. }
  split; [exact H|]. split.
  - intro Hw. apply H. unfold getWindAngle. rewrite Hw. reflexivity.
  - intros He Hd. apply H. rewrite He. unfold getWindAngle.
    destruct (animateWind settings); simpl; [|reflexivity].
    unfold Rdiv. rewrite Rinv_r by assumption. ring.
Qed.

(** X5 for a segment of the windless default settings. *)
Lemma renderedEnd_without_sway_witness :
  renderedEnd calmSettings 1
    {| x1 := 500; y1 := 300; x2 := 520; y2 := 280; thick := 1;
       depthLeft := 5; totalDepth := 11 |}
  = (520, 280).
Proof.
  destruct (renderedEnd_without_sway calmSettings 1
              {| x1 := 500; y1 := 300; x2 := 520; y2 := 280; thick := 1;
                 depthLeft := 5; totalDepth := 11 |}) as (_ & H & _).
  apply H. reflexivity.
Defined.

(** X6.  Sway turns a segment about its start point without stretching
    it: the end point it is drawn to is as far from the start point as
    the stored end point, at every wind time and under all settings. *)
Theorem renderedEnd_keeps_length (settings : Settings) (t : R)
  (s : Segment) :
  let e := renderedEnd settings t s in
  (fst e - x1 s) * (fst e - x1 s) + (snd e - y1 s) * (snd e - y1 s)
  = (x2 s - x1 s) * (x2 s - x1 s) + (y2 s - y1 s) * (y2 s - y1 s).
Proof.
  unfold renderedEnd. cbv zeta. cbn [fst snd].
  set (q := (x2 s - x1 s) * (x2 s - x1 s) + (y2 s - y1 s) * (y2 s - y1 s)).
  set (A := Math_atan2 (- (y2 s - y1 s)) (x2 s - x1 s)
            + getWindAngle settings t (depthLeft s) (totalDepth s)
              * PI / 180).
  assert (Hq : 0 <= q).
  { unfold q. fold (Rsqr (x2 s - x1 s)). fold (Rsqr (y2 s - y1 s)).
    apply Rplus_le_le_0_compat; apply Rle_0_sqr. }
  pose proof (sqrt_sqrt q Hq) as Hs.
  pose proof (sin2_cos2 A) as Hsc. unfold Rsqr in Hsc.
  replace (x1 s + sqrt q * cos A - x1 s) with (sqrt q * cos A) by ring.
  replace (y1 s - sqrt q * sin A - y1 s) with (- (sqrt q * sin A)) by ring.
  replace (sqrt q * cos A * (sqrt q * cos A)
           + - (sqrt q * sin A) * - (sqrt q * sin A))
    with (sqrt q * sqrt q * (sin A * sin A + cos A * cos A)) by ring.
  rewrite Hs, Hsc. ring.
Qed.

(** The loop of a frame with a whole limit [n], entered at index [i],
    draws the segments up to index [n], in order. *)
Lemma drawLoop_firstn (settings : Settings) (t : R) (n : nat) :
  forall segs i,
    drawLoop settings t (INR n) i segs
    = flat_map (drawSegment settings t) (firstn (n - i) segs).
Proof.
  induction segs as [|s rest IH]; intro i.
  - rewrite firstn_nil. reflexivity.
  - cbn [drawLoop].
    destruct (Rlt_dec (INR i) (INR n)) as [Hlt|Hge].
    + apply INR_lt in Hlt.
      replace (n - i)%nat with (S (n - S i)) by lia.
      cbn [firstn flat_map]. rewrite IH. reflexivity.
    + assert (n <= i)%nat.
      { destruct (le_lt_dec n i); [assumption|].
        exfalso. apply Hge. now apply lt_INR. }
      replace (n - i)%nat with 0%nat by lia. reflexivity.
Qed.

Lemma clamp_whole (n total : nat) :
  clamp (INR n) 0 (INR total) = INR (Nat.min n total).
Proof.
  unfold clamp.
  destruct (le_lt_dec n total) as [H|H].
  - rewrite Nat.min_l by assumption.
    rewrite Rmin_right by now apply le_INR.
    rewrite Rmax_right by apply pos_INR. reflexivity.
  - rewrite Nat.min_r by lia.
    rewrite Rmin_left by (apply le_INR; lia).
    rewrite Rmax_right by apply pos_INR. reflexivity.
Qed.

Lemma firstn_min_length (A : Type) (n : nat) (l : list A) :
  firstn (Nat.min n (List.length l)) l = firstn n l.
Proof.
  destruct (le_lt_dec n (List.length l)) as [H|H].
  - rewrite Nat.min_l by assumption. reflexivity.
  - rewrite Nat.min_r by lia.
    rewrite firstn_all, firstn_all2 by lia. reflexivity.
Qed.

(** X7.  A frame clears the canvas, paints the background and then draws
    a prefix of the segment list, in list order: with grow animation on
    and the counter at a whole number [n], the first [n] segments (all of
    them once [n] has passed the length); with grow animation off, all
    the segments, and the counter is then left as it was. *)
Theorem drawSegmentsFrame_prefix (settings : Settings) (bg : ThemeBG)
  (random : nat -> R) (ctx : Context2D) (w h : R) (st : AppState) :
  let r := drawSegmentsFrame settings bg random ctx w h st in
  let frame segs :=
    painted ctx
    ++ ClearRect 0 0 w h
       :: fst (drawBackground bg random w h (randomCalls st))
       ++ flat_map (drawSegment settings (windTimeRef st)) segs in
  (growAnimation settings = true ->
   forall n, growIndexRef st = INR n ->
     painted (fst r) = frame (firstn n (segmentsRef st)))
  /\ (growAnimation settings = false ->
      painted (fst r) = frame (segmentsRef st)
      /\ growIndexRef (snd r) = growIndexRef st).
Proof.
  cbv zeta. unfold drawSegmentsFrame. cbv zeta.
  cbn [fst snd painted growIndexRef]. split.
  - intros Hg n Hn. unfold revealLimit. cbv zeta.
    rewrite Hg, Hn, clamp_whole, drawLoop_firstn.
    rewrite Nat.sub_0_r, firstn_min_length. reflexivity.
  - intro Hg. unfold revealLimit, advanceGrow. cbv zeta. rewrite Hg.
    rewrite drawLoop_firstn, Nat.sub_0_r, firstn_all.
    split; reflexivity.
Qed.

(** X7 at the default settings: with the counter at 80, the frame over
    the list of 500 segments draws the first 80 of them. *)
Lemma drawSegmentsFrame_prefix_witness :
  let st := setGrowIndex (INR 80) state500 in
  let ctx := {| shadowBlur := 0; shadowColor := "transparent";
                painted := [] |} in
  painted (fst (drawSegmentsFrame initialSettings night (fun _ => 0)
                  ctx 1000 650 st))
  = ClearRect 0 0 1000 650
    :: fst (drawBackground night (fun _ => 0) 1000 650 0)
    ++ flat_map (drawSegment initialSettings 0)
         (firstn 80 (segmentsRef state500)).
Proof.
  cbv zeta.
  destruct (drawSegmentsFrame_prefix initialSettings night (fun _ => 0)
              {| shadowBlur := 0; shadowColor := "transparent";
                 painted := [] |}
              1000 650 (setGrowIndex (INR 80) state500)) as [H _].
  exact (H eq_refl 80%nat eq_refl).
Defined.

(** X8.  The draw action paints the whole tree at once, grow animation
    on or off: on a canvas with a context it rebuilds the segments and
    paints, after the background, every segment of the new list in
    order, at the wind time as it stands. *)
Theorem drawTreeOnce_paints_all (settings : Settings) (bg : ThemeBG)
  (random : nat -> R) (st : AppState) (canvas : Canvas)
  (ctx : Context2D) :
  canvasRef st = Some canvas -> context2d canvas = Some ctx ->
  let built := buildSegments settings random st in
  exists ctx',
    canvasRef (drawTreeOnce settings bg random st)
      = Some (setContext canvas ctx')
    /\ painted ctx'
       = painted ctx
         ++ ClearRect 0 0 (width canvas) (height canvas)
            :: fst (drawBackground bg random (width canvas)
                      (height canvas) (randomCalls built))
            ++ flat_map (drawSegment settings (windTimeRef st))
                 (segmentsRef built).
Proof.
  intros Hc Hx. cbv zeta. unfold drawTreeOnce. cbv zeta.
  rewrite buildSegments_canvas, Hc, Hx.
  unfold drawOnCanvas. cbn [canvasRef].
  eexists. split; [reflexivity|].
  unfold drawSegmentsFrame. cbv zeta.
  cbn [fst painted setGrowIndex segmentsRef growIndexRef randomCalls
       windTimeRef].
  assert (Hlimit : revealLimit settings
             (INR (List.length
                     (segmentsRef (buildSegments settings random st))))
             (segmentsRef (buildSegments settings random st))
           = INR (List.length
                    (segmentsRef (buildSegments settings random st)))).
  { unfold revealLimit. cbv zeta.
    destruct (growAnimation settings); [|reflexivity].
    rewrite clamp_whole, Nat.min_id. reflexivity. }
  rewrite Hlimit, drawLoop_firstn, Nat.sub_0_r, firstn_all.
  assert (Hw : windTimeRef (buildSegments settings random st)
               = windTimeRef st).
  { unfold buildSegments. rewrite Hc, Hx. reflexivity. }
  rewrite Hw. reflexivity.
Qed.

(** X8 on the canvas of the reference deployment. *)
Lemma drawTreeOnce_paints_all_witness :
  exists ctx',
    canvasRef (drawTreeOnce initialSettings night (fun _ => 0)
                 (initialState (Some canvas1000x650)))
    = Some (setContext canvas1000x650 ctx').
Proof.
  destruct (drawTreeOnce_paints_all initialSettings night (fun _ => 0)
              (initialState (Some canvas1000x650)) canvas1000x650
              {| shadowBlur := 0; shadowColor := "transparent";
                 painted := [] |} eq_refl eq_refl) as (ctx' & H & _).
  exists ctx'. exact H.
Defined.

(** X9.  After a rebuild with grow animation on, the next frame paints
    the background and no segment at all: the tree starts growing from
    nothing. *)
Theorem first_frame_after_rebuild (settings : Settings) (bg : ThemeBG)
  (random : nat -> R) (st : AppState) (canvas : Canvas)
  (ctx : Context2D) :
  growAnimation settings = true ->
  canvasRef st = Some canvas -> context2d canvas = Some ctx ->
  let built := buildSegments settings random st in
  exists ctx',
    canvasRef (tick settings bg random built)
      = Some (setContext canvas ctx')
    /\ painted ctx'
       = painted ctx
         ++ ClearRect 0 0 (width canvas) (height canvas)
            :: fst (drawBackground bg random (width canvas)
                      (height canvas) (randomCalls built)).
Proof.
  intros Hg Hc Hx. cbv zeta.
  assert (Hc' : canvasRef (buildSegments settings random st) = Some canvas)
    by (rewrite buildSegments_canvas; exact Hc).
  destruct (tick_paints settings bg random
              (buildSegments settings random st) canvas ctx Hc' Hx)
    as (ctx' & H1 & H2).
  exists ctx'. split; [exact H1|]. rewrite H2.
  rewrite buildSegments_growIndex
    by (exists canvas, ctx; split; assumption).
  unfold revealLimit. cbv zeta. rewrite Hg.
  change 0 with (INR 0) at 3.
  rewrite clamp_whole, drawLoop_firstn. cbn [Nat.min Nat.sub firstn flat_map].
  rewrite app_nil_r. reflexivity.
Qed.

(** X9 on the canvas of the reference deployment. *)
Lemma first_frame_after_rebuild_witness :
  exists ctx',
    canvasRef (tick initialSettings night (fun _ => 0)
                 (buildSegments initialSettings (fun _ => 0)
                    (initialState (Some canvas1000x650))))
    = Some (setContext canvas1000x650 ctx').
Proof.
  destruct (first_frame_after_rebuild initialSettings night (fun _ => 0)
              (initialState (Some canvas1000x650)) canvas1000x650
              {| shadowBlur := 0; shadowColor := "transparent";
                 painted := [] |} eq_refl eq_refl eq_refl)
    as (ctx' & H & _).
  exists ctx'. exact H.
Defined.

(** The dots are drawn one after the other from three successive values
    of [Math.random] each. *)
Lemma drawDots_map (random : nat -> R) (w h alpha : R) :
  forall n k,
    drawDots random n w h alpha k
    = map (fun i =>
             FillCircle (random (k + 3 * i)%nat * w)
               (random (k + 3 * i + 1)%nat * h)
               (random (k + 3 * i + 2)%nat * (15 / 10) + 2 / 10)
               "#ffffff" alpha)
        (seq 0 n).
Proof.
  induction n as [|n IH]; intro k; [reflexivity|].
  change (drawDots random (S n) w h alpha k)
    with (FillCircle (random k * w) (random (k + 1)%nat * h)
            (random (k + 2)%nat * (15 / 10) + 2 / 10) "#ffffff" alpha
          :: drawDots random n w h alpha (k + 3)).
  cbn [seq map]. f_equal.
  - replace (k + 3 * 0)%nat with k by lia. reflexivity.
  - rewrite IH, <- seq_shift, map_map.
    apply map_ext. intro i.
    replace (k + 3 + 3 * i)%nat with (k + 3 * S i)%nat by lia.
    reflexivity.
Qed.

Lemma dots_on_canvas (random : nat -> R) (w h alpha : R) (k : nat)
  (l : list nat) :
  (forall n, 0 <= random n < 1) -> 0 < w -> 0 < h ->
  Forall (dotOnCanvas w h alpha)
    (map (fun i =>
            FillCircle (random (k + 3 * i)%nat * w)
              (random (k + 3 * i + 1)%nat * h)
              (random (k + 3 * i + 2)%nat * (15 / 10) + 2 / 10)
              "#ffffff" alpha) l).
Proof.
  intros Hr Hw Hh. induction l as [|i l IH]; [constructor|].
  cbn [map]. constructor; [|exact IH].
  unfold dotOnCanvas.
  pose proof (Hr (k + 3 * i)%nat). pose proof (Hr (k + 3 * i + 1)%nat).
  pose proof (Hr (k + 3 * i + 2)%nat).
  repeat split; nra.
Qed.

(** X10.  The background of a frame is one gradient over the whole
    canvas followed by exactly 120 dots and nothing else.  Dot number
    [i] takes its x, its y and its radius from calls [3i], [3i+1] and
    [3i+2] of [Math.random] counted from the start of the background, so
    that 360 calls are made in all; it is white, of opacity 0.35 under
    the snow theme and 0.25 under the others, and on a canvas of positive
    width and height it has its centre on the canvas and a radius from
    0.2 up to 1.7. *)
Theorem drawBackground_dots (bg : ThemeBG) (random : nat -> R)
  (w h : R) (k : nat) :
  (forall n, 0 <= random n < 1) -> 0 < w -> 0 < h ->
  let alpha := match bg with snow => 35 / 100 | _ => 25 / 100 end in
  let dots :=
    map (fun i =>
           FillCircle (random (k + 3 * i)%nat * w)
             (random (k + 3 * i + 1)%nat * h)
             (random (k + 3 * i + 2)%nat * (15 / 10) + 2 / 10)
             "#ffffff" alpha)
      (seq 0 120) in
  (exists stop0 stop1,
     fst (drawBackground bg random w h k)
     = FillGradient stop0 stop1 0 0 w h :: dots)
  /\ List.length dots = 120%nat
  /\ Forall (dotOnCanvas w h alpha) dots
  /\ snd (drawBackground bg random w h k) = (k + 360)%nat.
Proof.
  intros Hr Hw Hh. cbv zeta. split; [|split; [|split]].
  - unfold drawBackground. cbv zeta. cbn [fst].
    rewrite drawDots_map.
    destruct bg; eexists; eexists; reflexivity.
  - rewrite length_map, length_seq. reflexivity.
  - now apply dots_on_canvas.
  - reflexivity.
Qed.

(** X10 under the snow theme on the canvas of the reference deployment,
    [Math.random] returning 1/2 every time: the gradient, then 120 white
    dots of opacity 0.35 at the centre of the canvas, of radius 0.95. *)
Lemma drawBackground_dots_witness :
  fst (drawBackground snow (fun _ => 1 / 2) 1000 650 720)
  = FillGradient "#0a1222" "#06101e" 0 0 1000 650
    :: map (fun _ =>
              FillCircle (1 / 2 * 1000) (1 / 2 * 650)
                (1 / 2 * (15 / 10) + 2 / 10) "#ffffff" (35 / 100))
         (seq 0 120).
Proof.
  destruct (drawBackground_dots snow (fun _ => 1 / 2) 1000 650 720)
    as ((stop0 & stop1 & H) & _); [intros; lra | lra | lra |].
  pose proof H as H'.
  unfold drawBackground in H'. cbv zeta in H'. cbn [fst] in H'.
  injection H' as H0 H1. rewrite H, <- H0, <- H1. reflexivity.
Defined.

(** Splits on which bound, if any, [clamp] returns. *)
Ltac clamp_cases :=
  unfold clamp;
  match goal with
  | |- context [Rmin ?a ?b] =>
      destruct (Rle_dec a b);
      [rewrite (Rmin_left a b) by lra | rewrite (Rmin_right a b) by lra]
  end;
  match goal with
  | |- context [Rmax ?a ?b] =>
      destruct (Rle_dec a b);
      [rewrite (Rmax_right a b) by lra | rewrite (Rmax_left a b) by lra]
  end;
  try lra.

Lemma clamp_range_aux (n : R) :
  12 / 10 <= clamp n (12 / 10) 5 /\ clamp n (12 / 10) 5 <= 5.
Proof.
  split; clamp_cases.
Qed.

(** X11.  [clamp] returns its argument when that lies between the two
    bounds and the nearer bound otherwise, so for bounds in order its
    result is always between them; when the lower bound is above the
    upper one it returns the lower bound. *)
Theorem clamp_range (n lo hi : R) :
  (lo <= hi -> lo <= clamp n lo hi <= hi)
  /\ (lo <= n <= hi -> clamp n lo hi = n)
  /\ (n <= lo -> clamp n lo hi = lo)
  /\ (lo <= hi -> hi <= n -> clamp n lo hi = hi)
  /\ (hi < lo -> clamp n lo hi = lo).
Proof.
  repeat split; intros; clamp_cases.
Qed.

(** X11 for the radius of a leaf dot of thickness 10. *)
Lemma clamp_range_witness :
  12 / 10 <= clamp (10 * (55 / 100)) (12 / 10) 5 <= 5.
Proof.
  apply (clamp_range (10 * (55 / 100)) (12 / 10) 5). lra.
Defined.

(** X12.  What a frame draws for the segments is one stroke for each and
    leaf dots: a dot is only ever drawn with leaf mode on, in the leaf
    colour of the preset, at 0.85 opacity and with a radius between 1.2
    and 5; no other operation is issued. *)
Theorem drawLoop_ops (settings : Settings) (t limit : R) :
  forall segs i op,
    In op (drawLoop settings t limit i segs) ->
    match op with
    | StrokeLine _ _ _ _ _ _ => True
    | FillCircle _ _ r color alpha =>
        leafMode settings = true
        /\ color = leaf (presetColors (preset settings))
        /\ alpha = 85 / 100
        /\ 12 / 10 <= r <= 5
    | _ => False
    end.
Proof.
  induction segs as [|s rest IH]; intros i op Hin; [contradiction|].
  cbn [drawLoop] in Hin.
  destruct (Rlt_dec (INR i) limit); [|contradiction].
  apply in_app_or in Hin. destruct Hin as [Hin|Hin]; [|eapply IH; eassumption].
  unfold drawSegment in Hin. cbv zeta in Hin.
  destruct Hin as [<-|Hin]; [exact I|].
  destruct (leafMode settings) eqn:Hl; [|contradiction].
  cbn [andb] in Hin.
  destruct (Rle_dec (depthLeft s) 2); [|contradiction].
  destruct Hin as [<-|[]].
  split; [reflexivity|]. split; [reflexivity|]. split; [reflexivity|].
  apply clamp_range_aux.
Qed.

(** X12 for a twig of thickness 10 at the default settings: its leaf
    dot has a radius between 1.2 and 5. *)
Lemma drawLoop_ops_witness :
  12 / 10 <= clamp (10 * (55 / 100)) (12 / 10) 5 <= 5.
Proof.
  pose (s := {| x1 := 500; y1 := 300; x2 := 520; y2 := 280; thick := 10;
                depthLeft := 1; totalDepth := 11 |}).
  pose proof (drawLoop_ops initialSettings 0 1 [s] 0
                (FillCircle (fst (renderedEnd initialSettings 0 s))
                   (snd (renderedEnd initialSettings 0 s))
                   (clamp (thick s * (55 / 100)) (12 / 10) 5)
                   (leaf (presetColors (preset initialSettings)))
                   (85 / 100))) as H.
  apply H. cbn [drawLoop].
  destruct (Rlt_dec (INR 0) 1) as [_|Hn]; [|exfalso; simpl in Hn; lra].
  rewrite app_nil_r. unfold drawSegment. cbv zeta.
  cbn [leafMode initialSettings andb depthLeft s].
  destruct (Rle_dec 1 2) as [_|Hn]; [|exfalso; lra].
  right. left. reflexivity.
Defined.

(* ================================================================== *)
(** * Further properties of the animation driver *)

Lemma remove_single (h : positive) : List.remove Pos.eq_dec h [h] = [].
Proof.
  cbn [List.remove]. destruct (Pos.eq_dec h h); [reflexivity|contradiction].
Qed.

Lemma oneLoop_stopLoop (st : AppState) :
  oneLoop st ->
  rafRef (stopLoop st) = None /\ pendingFrames (stopLoop st) = [].
Proof.
  unfold oneLoop, stopLoop. intro H.
  destruct (rafRef st) as [h|] eqn:Hr.
  - cbn [rafRef pendingFrames setRaf cancelAnimationFrame].
    rewrite H, remove_single. split; reflexivity.
  - rewrite Hr. split; [reflexivity|assumption].
Qed.

Lemma oneLoop_startLoop (st : AppState) :
  oneLoop st -> oneLoop (startLoop st).
Proof.
  intro H. destruct (oneLoop_stopLoop st H) as [H1 H2].
  unfold startLoop. cbv zeta.
  destruct (canvasRef (stopLoop st)) as [canvas|].
  - destruct (context2d canvas).
    + unfold oneLoop.
      cbn [rafRef pendingFrames setRaf requestAnimationFrame fst snd].
      rewrite H2. reflexivity.
    + unfold oneLoop. rewrite H1, H2. reflexivity.
  - unfold oneLoop. rewrite H1, H2. reflexivity.
Qed.

Lemma tick_registers (settings : Settings) (bg : ThemeBG)
  (random : nat -> R) (st : AppState) :
  rafRef (tick settings bg random st) = Some (nextFrame st)
  /\ pendingFrames (tick settings bg random st)
     = nextFrame st :: pendingFrames st.
Proof.
  unfold tick. cbv zeta.
  cbn [rafRef pendingFrames setRaf requestAnimationFrame fst snd
       canvasRef setWindTime].
  destruct (canvasRef st) as [canvas|];
    [|cbn [nextFrame pendingFrames setWindTime]; split; reflexivity].
  destruct (context2d canvas);
    [|cbn [nextFrame pendingFrames setWindTime]; split; reflexivity].
  unfold drawOnCanvas, drawSegmentsFrame. cbv zeta.
  cbn [nextFrame pendingFrames snd setWindTime]. split; reflexivity.
Qed.

Lemma oneLoop_runFrame (settings : Settings) (bg : ThemeBG)
  (random : nat -> R) (h : positive) (st : AppState) :
  oneLoop st -> oneLoop (runFrame settings bg random h st).
Proof.
  intro H. unfold runFrame.
  destruct (in_dec Pos.eq_dec h (pendingFrames st)) as [Hin|]; [|exact H].
  unfold oneLoop in H.
  destruct (rafRef st) as [h0|] eqn:Hr;
    rewrite H in Hin; [|contradiction].
  destruct Hin as [<-|[]].
  destruct (tick_registers settings bg random (cancelAnimationFrame h0 st))
    as [H1 H2].
  unfold oneLoop. rewrite H1, H2.
  cbn [pendingFrames nextFrame cancelAnimationFrame].
  rewrite H, remove_single. reflexivity.
Qed.

Lemma oneLoop_buildSegments (settings : Settings) (random : nat -> R)
  (st : AppState) :
  oneLoop st -> oneLoop (buildSegments settings random st).
Proof.
  intro H. unfold buildSegments.
  destruct (canvasRef st) as [canvas|]; [|exact H].
  destruct (context2d canvas); [|exact H].
  exact H.
Qed.

Lemma oneLoop_drawTreeOnce (settings : Settings) (bg : ThemeBG)
  (random : nat -> R) (st : AppState) :
  oneLoop st -> oneLoop (drawTreeOnce settings bg random st).
Proof.
  intro H. apply (oneLoop_buildSegments settings random) in H.
  unfold drawTreeOnce. cbv zeta.
  destruct (canvasRef (buildSegments settings random st)) as [canvas|];
    [|exact H].
  destruct (context2d canvas); [|exact H].
  exact H.
Qed.

(** X13.  There is never more than one frame callback registered: in the
    state before the effects have run the host holds none, and mounting,
    an update of the settings, a frame, starting and stopping the loop,
    the draw action and the export all keep the callbacks held by the
    host to the one whose handle is in [rafRef], if any. *)
Theorem one_loop_at_most (old new : Settings) (oldBg newBg : ThemeBG)
  (random : nat -> R) (h : positive) (cv : option Canvas)
  (st : AppState) :
  oneLoop (initialState cv)
  /\ (oneLoop st ->
      oneLoop (mountEffects new random st)
      /\ oneLoop (updateEffects old new oldBg newBg random st)
      /\ oneLoop (runFrame new newBg random h st)
      /\ oneLoop (startLoop st)
      /\ oneLoop (stopLoop st)
      /\ oneLoop (drawTreeOnce new newBg random st)
      /\ oneLoop (downloadPNG st)
      /\ (List.length (pendingFrames st) <= 1)%nat).
Proof.
  split; [reflexivity|]. intro H.
  assert (Hstop : oneLoop (stopLoop st)).
  { destruct (oneLoop_stopLoop st H) as [H1 H2].
    unfold oneLoop. rewrite H1, H2. reflexivity. }
  split.
  { unfold mountEffects. apply oneLoop_startLoop.
    now apply oneLoop_buildSegments. }
  split.
  { unfold updateEffects. cbv zeta.
    destruct (loopDepsSame old new oldBg newBg);
      destruct (shapeDepsSame old new);
      repeat first [ assumption
                   | apply oneLoop_startLoop
                   | apply oneLoop_buildSegments ]. }
  split; [now apply oneLoop_runFrame|].
  split; [now apply oneLoop_startLoop|].
  split; [exact Hstop|].
  split; [now apply oneLoop_drawTreeOnce|].
  split.
  { unfold downloadPNG. destruct (canvasRef st); exact H. }
  unfold oneLoop in H. rewrite H.
  destruct (rafRef st); simpl; lia.
Qed.

(** X13 from the state before the effects have run, on the canvas of the
    reference deployment. *)
Lemma one_loop_at_most_witness :
  oneLoop (mountEffects initialSettings (fun _ => 0)
             (initialState (Some canvas1000x650))).
Proof.
  destruct (one_loop_at_most initialSettings initialSettings night night
              (fun _ => 0) 1%positive (Some canvas1000x650)
              (initialState (Some canvas1000x650))) as [H0 H].
  destruct (H H0) as (Hm & _). exact Hm.
Defined.

(** X14.  Once the loop has been stopped no frame callback runs any
    more: whatever handle the host might run, the state stays as
    [stopLoop] left it; stopping twice is stopping once; and a handle
    other than the one in [rafRef] never runs either. *)
Theorem stopped_loop_stays_stopped (settings : Settings) (bg : ThemeBG)
  (random : nat -> R) (h : positive) (st : AppState) :
  oneLoop st ->
  runFrame settings bg random h (stopLoop st) = stopLoop st
  /\ stopLoop (stopLoop st) = stopLoop st
  /\ (rafRef st <> Some h -> runFrame settings bg random h st = st).
Proof.
  intro H. destruct (oneLoop_stopLoop st H) as [H1 H2].
  split; [|split].
  - unfold runFrame. rewrite H2.
    destruct (in_dec Pos.eq_dec h []) as [[]|]; reflexivity.
  - unfold stopLoop at 1. rewrite H1. reflexivity.
  - intro Hne. unfold runFrame.
    destruct (in_dec Pos.eq_dec h (pendingFrames st)) as [Hin|];
      [|reflexivity].
    unfold oneLoop in H. rewrite H in Hin.
    destruct (rafRef st) as [h0|]; [|contradiction].
    destruct Hin as [<-|[]]. contradiction.
Qed.

(** X14 after mounting on the canvas of the reference deployment. *)
Lemma stopped_loop_stays_stopped_witness :
  let st := mountEffects initialSettings (fun _ => 0)
              (initialState (Some canvas1000x650)) in
  runFrame initialSettings night (fun _ => 0) 1%positive (stopLoop st)
  = stopLoop st.
Proof.
  cbv zeta.
  destruct (stopped_loop_stays_stopped initialSettings night (fun _ => 0)
              1%positive
              (mountEffects initialSettings (fun _ => 0)
                 (initialState (Some canvas1000x650)))) as [H _].
  - unfold mountEffects. apply oneLoop_startLoop.
    apply oneLoop_buildSegments. reflexivity.
  - exact H.
Defined.

Lemma tick_randomCalls (settings : Settings) (bg : ThemeBG)
  (random : nat -> R) (st : AppState) :
  hasContext st ->
  randomCalls (tick settings bg random st) = (randomCalls st + 360)%nat.
Proof.
  intros (canvas & ctx & Hc & Hx). unfold tick. cbv zeta.
  cbn [randomCalls setRaf requestAnimationFrame snd canvasRef setWindTime].
  rewrite Hc, Hx. unfold drawOnCanvas, drawSegmentsFrame, drawBackground.
  cbv zeta. cbn [randomCalls snd setWindTime]. reflexivity.
Qed.

(** X15.  Every frame advances the wind time by [0.02 * windSpeed],
    drawn or not, so after [n] frames it has grown by [n] times that;
    on a canvas with a context the frames leave the segment list alone
    and call [Math.random] 360 times each. *)
Theorem frames_bookkeeping (settings : Settings) (bg : ThemeBG)
  (random : nat -> R) (st : AppState) (n : nat) :
  windTimeRef (frames settings bg random n st)
    = windTimeRef st + INR n * (2 / 100 * windSpeed settings)
  /\ segmentsRef (frames settings bg random n st) = segmentsRef st
  /\ (hasContext st ->
      randomCalls (frames settings bg random n st)
      = (randomCalls st + 360 * n)%nat).
Proof.
  induction n as [|n (IH1 & IH2 & IH3)].
  - simpl. split; [lra|]. split; [reflexivity|]. intros _. lia.
  - rewrite frames_S. split; [|split].
    + rewrite tick_windTime, IH1, S_INR. ring.
    + rewrite tick_segments. exact IH2.
    + intro Hc.
      destruct (frames_invariant settings bg random st Hc n) as [Hn _].
      rewrite tick_randomCalls by assumption.
      rewrite IH3 by assumption. lia.
Qed.

(** X15 for sixty frames of the default settings. *)
Lemma frames_bookkeeping_witness :
  randomCalls (frames initialSettings night (fun _ => 0) 60 state500)
  = (0 + 360 * 60)%nat.
Proof.
  apply (frames_bookkeeping initialSettings night (fun _ => 0) state500 60).
  exists canvas1000x650. eexists. split; reflexivity.
Defined.

(** The counter after [n] frames from zero: [n] grow speeds, or else it
    has reached the length of the list, which [n] grow speeds would have
    reached too. *)
Lemma grow_counter_frames (settings : Settings) (bg : ThemeBG)
  (random : nat -> R) (st : AppState) :
  growAnimation settings = true -> 0 < growSpeed settings ->
  hasContext st -> growIndexRef st = 0 ->
  forall n,
    growIndexRef (frames settings bg random n st)
      = INR n * growSpeed settings
    \/ (INR (List.length (segmentsRef st))
          <= growIndexRef (frames settings bg random n st)
        /\ INR (List.length (segmentsRef st))
           <= INR n * growSpeed settings).
Proof.
  intros Hg Hs Hc H0 n. induction n as [|n IH].
  - left. simpl. rewrite H0. ring.
  - rewrite frames_S.
    destruct (frames_invariant settings bg random st Hc n) as [Hn1 Hn2].
    rewrite tick_growIndex by assumption. rewrite Hn2, S_INR.
    pose proof (pos_INR n) as Hpos.
    destruct (Rlt_dec (growIndexRef (frames settings bg random n st))
                (INR (List.length (segmentsRef st)))) as [Hlt|Hge].
    + rewrite advanceGrow_below by assumption.
      destruct IH as [IH|[IH _]]; [left; rewrite IH; ring|lra].
    + rewrite advanceGrow_reached by lra.
      right. split; [lra|].
      destruct IH as [IH|[_ IH]]; nra.
Qed.

(** X16.  Growing always completes: from a counter at zero, with grow
    animation on and a positive grow speed, the limit up to which the
    frame after [n] frames draws is [n] grow speeds or the length of the
    list, whichever is smaller; so from the first [n] with
    [n * growSpeed] at least the length on, every frame draws the whole
    tree. *)
Theorem growth_completes (settings : Settings) (bg : ThemeBG)
  (random : nat -> R) (st : AppState) (n : nat) :
  growAnimation settings = true -> 0 < growSpeed settings ->
  hasContext st -> growIndexRef st = 0 ->
  revealLimit settings (growIndexRef (frames settings bg random n st))
    (segmentsRef (frames settings bg random n st))
  = Rmin (INR n * growSpeed settings) (INR (List.length (segmentsRef st))).
Proof.
  intros Hg Hs Hc H0.
  destruct (frames_invariant settings bg random st Hc n) as [_ Hsegs].
  pose proof (grow_counter_frames settings bg random st Hg Hs Hc H0 n)
    as Hcount.
  rewrite Hsegs. unfold revealLimit. cbv zeta. rewrite Hg.
  pose proof (pos_INR n) as Hn.
  pose proof (pos_INR (List.length (segmentsRef st))) as Ht.
  destruct Hcount as [->|[H1 H2]].
  - assert (0 <= INR n * growSpeed settings) by nra.
    destruct (Rle_dec (INR n * growSpeed settings)
                (INR (List.length (segmentsRef st)))).
    + rewrite Rmin_left by assumption. clamp_cases.
    + rewrite Rmin_right by lra. clamp_cases.
  - rewrite Rmin_right by assumption. clamp_cases.
Qed.

(** X16 over the list of 500 segments: after seven frames at speed 80
    the limit is the length of the list. *)
Lemma growth_completes_witness :
  revealLimit initialSettings
    (growIndexRef (frames initialSettings night (fun _ => 0) 7 state500))
    (segmentsRef (frames initialSettings night (fun _ => 0) 7 state500))
  = Rmin (INR 7 * 80) (INR (List.length (segmentsRef state500))).
Proof.
  apply (growth_completes initialSettings night (fun _ => 0) state500 7).
  - reflexivity.
  - simpl; lra.
  - exists canvas1000x650. eexists. split; reflexivity.
  - reflexivity.
Defined.

(** X17.  [startLoop] registers exactly one callback when the canvas and
    its context are there, under the handle the host issues next, and
    none when they are not: without a drawable surface the loop is
    stopped and stays stopped. *)
Theorem startLoop_registers (st : AppState) :
  oneLoop st ->
  (hasContext st ->
   rafRef (startLoop st) = Some (nextFrame st)
   /\ pendingFrames (startLoop st) = [nextFrame st])
  /\ (~ hasContext st ->
      rafRef (startLoop st) = None /\ pendingFrames (startLoop st) = []).
Proof.
  intro H. destruct (oneLoop_stopLoop st H) as [H1 H2].
  assert (Hcv : canvasRef (stopLoop st) = canvasRef st).
  { destruct (stopLoop_same st) as (Hc & _). congruence. }
  assert (Hnf : nextFrame (stopLoop st) = nextFrame st).
  { unfold stopLoop. destruct (rafRef st); reflexivity. }
  unfold startLoop. cbv zeta. rewrite Hcv. split.
  - intros (canvas & ctx & Hc & Hx). rewrite Hc, Hx.
    cbn [rafRef pendingFrames setRaf requestAnimationFrame fst snd].
    rewrite H2, Hnf. split; reflexivity.
  - intro Hno.
    destruct (canvasRef st) as [canvas|] eqn:Hc; [|split; assumption].
    destruct (context2d canvas) as [ctx|] eqn:Hx; [|split; assumption].
    exfalso. apply Hno. exists canvas, ctx. split; assumption.
Qed.

(** X17 two frames into the default animation, the callback under
    handle 3 pending: [startLoop] cancels it and registers one callback
    under handle 4; and on the canvas that gives no context it registers
    none. *)
Lemma startLoop_registers_witness :
  (rafRef stateGrowing = Some 3%positive
   /\ rafRef (startLoop stateGrowing) = Some 4%positive
   /\ pendingFrames (startLoop stateGrowing) = [4%positive])
  /\ (rafRef (startLoop stateNoContext) = None
      /\ pendingFrames (startLoop stateNoContext) = []).
Proof.
  destruct (startLoop_registers stateGrowing eq_refl) as [Hyes _].
  destruct (startLoop_registers stateNoContext eq_refl) as [_ Hno].
  split.
  - split; [reflexivity|]. apply Hyes.
    exists canvas1000x650. eexists. split; reflexivity.
  - apply Hno. intros (canvas & ctx & Hc & Hx).
    injection Hc as <-. discriminate Hx.
Defined.

(** X18.  Less sway for the trunk, more for the leaves: with wind on,
    for a wind strength that is not negative and a positive total depth,
    the magnitude of the sway angle of a segment with more levels left
    is at most that of a segment with fewer levels left, and it is the
    full [|sin(windTime)| * windStrength] where no level is left. *)
Theorem sway_grows_toward_leaves (settings : Settings) (t dl dl' td : R) :
  0 <= windStrength settings -> 0 < td -> dl <= dl' <= td ->
  Rabs (getWindAngle settings t dl' td)
    <= Rabs (getWindAngle settings t dl td)
  /\ (animateWind settings = true ->
      Rabs (getWindAngle settings t 0 td)
      = Rabs (sin t) * windStrength settings).
Proof.
  intros Hw Htd [H1 H2]. unfold getWindAngle.
  destruct (animateWind settings); simpl.
  - assert (Hq : forall d, d <= td -> 0 <= 1 - d / td).
    { intros d Hd.
      assert (d / td <= 1).
      { apply Rmult_le_reg_r with td; [assumption|].
        unfold Rdiv. rewrite Rmult_assoc, Rinv_l by lra. lra. }
      lra. }
    assert (Hm : dl / td <= dl' / td).
    { unfold Rdiv. apply Rmult_le_compat_r; [|assumption].
      left. now apply Rinv_0_lt_compat. }
    pose proof (Hq dl' H2) as Hq'. pose proof (Hq dl ltac:(lra)) as Hq0.
    pose proof (Rabs_pos (sin t)) as Hs.
    split.
    + rewrite !Rabs_mult.
      rewrite (Rabs_pos_eq (windStrength settings)) by assumption.
      rewrite (Rabs_pos_eq (1 - dl' / td)) by assumption.
      rewrite (Rabs_pos_eq (1 - dl / td)) by assumption.
      apply Rmult_le_compat_l; [assumption|].
      apply Rmult_le_compat_l; [assumption|]. lra.
    + intros _. unfold Rdiv. rewrite Rmult_0_l, Rminus_0_r, Rmult_1_r.
      rewrite Rabs_mult.
      rewrite (Rabs_pos_eq (windStrength settings)) by assumption.
      reflexivity.
  - split; [rewrite Rabs_R0; lra|discriminate].
Qed.

(** X18 at the default settings: a segment with 8 of 11 levels left
    against one with 3 of 11. *)
Lemma sway_grows_toward_leaves_witness :
  Rabs (getWindAngle initialSettings 1 8 11)
  <= Rabs (getWindAngle initialSettings 1 3 11).
Proof.
  apply (sway_grows_toward_leaves initialSettings 1 3 8 11);
    simpl; lra.
Defined.

(* ================================================================== *)
(** * The random settings *)

(** [Math.floor] of a number from 0 up to a whole number [m] is a whole
    number from 0 to [m - 1]. *)
Lemma Math_floor_below (x : R) (m : Z) :
  0 <= x < IZR m ->
  exists z : Z, Math_floor x = IZR z /\ (0 <= z <= m - 1)%Z.
Proof.
  intros [H0 H1]. unfold Math_floor.
  destruct (base_Int_part x) as [Ha Hb].
  exists (Int_part x). split; [reflexivity|]. split.
  - assert (-1 < Int_part x)%Z by (apply lt_IZR; lra). lia.
  - assert (Int_part x < m)%Z by (apply lt_IZR; lra). lia.
Qed.

Lemma Math_floor_between (x : R) (lo hi : Z) :
  IZR lo <= x < IZR hi ->
  exists z : Z, Math_floor x = IZR z /\ (lo <= z <= hi - 1)%Z.
Proof.
  intros [H0 H1]. unfold Math_floor.
  destruct (base_Int_part x) as [Ha Hb].
  exists (Int_part x). split; [reflexivity|]. split.
  - assert (lo - 1 < Int_part x)%Z
      by (apply lt_IZR; rewrite minus_IZR; lra).
    lia.
  - assert (Int_part x < hi)%Z by (apply lt_IZR; lra). lia.
Qed.

(** X19.  [randomize] always lands inside the ranges of the controls:
    whatever [Math.random] returns, the depth is a whole number from 9 to
    14, the angle one from 10 to 44, the length one from 120 to 209, the
    thickness one from 6 to 15, the randomness one from 0 to 7 and the
    shrink a whole number of hundredths from 0.58 to 0.76.  The wind,
    grow and preset settings are those of before, the settings stay
    within the sliders if they were, and [Math.random] has been called
    seven times. *)
Theorem randomize_within_sliders (random : nat -> R) (k : nat)
  (prev : Settings) :
  (forall n, 0 <= random n < 1) ->
  let s := fst (randomize random k prev) in
  (exists z, depth s = IZR z /\ (9 <= z <= 14)%Z)
  /\ (exists z, angle s = IZR z /\ (10 <= z <= 44)%Z)
  /\ (exists z, length s = IZR z /\ (120 <= z <= 209)%Z)
  /\ (exists z, shrink s = IZR z / 100 /\ (58 <= z <= 76)%Z)
  /\ (exists z, thickness s = IZR z /\ (6 <= z <= 15)%Z)
  /\ (exists z, randomness s = IZR z /\ (0 <= z <= 7)%Z)
  /\ (animateWind s = animateWind prev
      /\ windStrength s = windStrength prev
      /\ windSpeed s = windSpeed prev
      /\ growAnimation s = growAnimation prev
      /\ growSpeed s = growSpeed prev
      /\ preset s = preset prev)
  /\ (withinSliders prev -> withinSliders s)
  /\ snd (randomize random k prev) = (k + 7)%nat.
Proof.
  intro Hr. cbv zeta. unfold randomize.
  cbn [fst snd depth angle length shrink thickness randomness animateWind
       windStrength windSpeed growAnimation growSpeed preset].
  pose proof (Hr k) as R0. pose proof (Hr (k + 1)%nat) as R1.
  pose proof (Hr (k + 2)%nat) as R2. pose proof (Hr (k + 3)%nat) as R3.
  pose proof (Hr (k + 4)%nat) as R4. pose proof (Hr (k + 5)%nat) as R5.
  destruct (Math_floor_below (random k * 6) 6 ltac:(lra))
    as (zd & Ed & Hd).
  destruct (Math_floor_below (random (k + 1)%nat * 35) 35 ltac:(lra))
    as (za & Ea & Ha).
  destruct (Math_floor_below (random (k + 2)%nat * 90) 90 ltac:(lra))
    as (zl & El & Hl).
  destruct (Math_floor_below (random (k + 4)%nat * 10) 10 ltac:(lra))
    as (zt & Et & Ht).
  destruct (Math_floor_below (random (k + 5)%nat * 8) 8 ltac:(lra))
    as (zr & Er & Hrn).
  assert (Hshrink : exists z,
            toFixed2 (random (k + 3)%nat * (18 / 100) + 58 / 100)
            = IZR z / 100 /\ (58 <= z <= 76)%Z).
  { unfold toFixed2.
    destruct (Rlt_dec (random (k + 3)%nat * (18 / 100) + 58 / 100) 0);
      [lra|].
    destruct (Math_floor_between
                ((random (k + 3)%nat * (18 / 100) + 58 / 100) * 100
                 + 1 / 2) 58 77 ltac:(lra)) as (z & Ez & Hz).
    exists z. rewrite Ez. split; [reflexivity|lia]. }
  rewrite Ed, Ea, El, Et, Er.
  destruct Hshrink as (zs & Es & Hs). rewrite Es.
  assert (B : forall z lo hi, (lo <= z <= hi)%Z -> IZR lo <= IZR z <= IZR hi).
  { intros z lo hi [? ?]. split; now apply IZR_le. }
  pose proof (B _ _ _ Hd) as Bd. pose proof (B _ _ _ Ha) as Ba.
  pose proof (B _ _ _ Hl) as Bl. pose proof (B _ _ _ Ht) as Bt.
  pose proof (B _ _ _ Hrn) as Br. pose proof (B _ _ _ Hs) as Bs.
  simpl in Bd, Ba, Bl, Bt, Br, Bs.
  split; [exists (zd + 9)%Z; rewrite plus_IZR; split; [reflexivity|lia]|].
  split; [exists (za + 10)%Z; rewrite plus_IZR; split; [reflexivity|lia]|].
  split; [exists (zl + 120)%Z; rewrite plus_IZR; split; [reflexivity|lia]|].
  split; [exists zs; split; [reflexivity|assumption]|].
  split; [exists (zt + 6)%Z; rewrite plus_IZR; split; [reflexivity|lia]|].
  split; [exists zr; split; [reflexivity|assumption]|].
  split; [repeat split|].
  split; [|reflexivity].
  unfold withinSliders.
  cbn [depth angle length shrink thickness randomness windStrength
       windSpeed growSpeed].
  intros (_ & _ & _ & _ & _ & _ & W1 & W2 & W3).
  repeat split; lra.
Qed.

(** X19 for a [Math.random] that always returns 1/2, from the default
    settings. *)
Lemma randomize_within_sliders_witness :
  withinSliders (fst (randomize (fun _ => 1 / 2) 0 initialSettings)).
Proof.
  destruct (randomize_within_sliders (fun _ => 1 / 2) 0 initialSettings)
    as (_ & _ & _ & _ & _ & _ & _ & H & _).
  - intros; lra.
  - apply H. unfold withinSliders. simpl. repeat split; lra.
Defined.

(* ================================================================== *)
(** * The draw action and what follows it *)

Lemma buildSegments_segments (settings : Settings) (random : nat -> R)
  (st : AppState) (canvas : Canvas) (ctx : Context2D) :
  canvasRef st = Some canvas -> context2d canvas = Some ctx ->
  segmentsRef (buildSegments settings random st)
  = fst (collect settings random (width canvas / 2) (height canvas - 20)
           (length settings) 90 (depth settings) (thickness settings)
           (randomCalls st)).
Proof.
  intros Hc Hx. unfold buildSegments. rewrite Hc, Hx. reflexivity.
Qed.

Lemma drawTreeOnce_canvas (settings : Settings) (bg : ThemeBG)
  (random : nat -> R) (st : AppState) (canvas : Canvas)
  (ctx : Context2D) :
  canvasRef st = Some canvas -> context2d canvas = Some ctx ->
  exists ctx',
    canvasRef (drawTreeOnce settings bg random st)
    = Some (setContext canvas ctx').
Proof.
  intros Hc Hx. unfold drawTreeOnce. cbv zeta.
  rewrite buildSegments_canvas, Hc, Hx.
  unfold drawOnCanvas. cbn [canvasRef].
  eexists. reflexivity.
Qed.

(** X20.  With randomness 0 the build does not depend on what
    [Math.random] returns: two runs of [collect] from the same arguments
    push the same list of segments, and the draw action is repeatable,
    drawing again rebuilding exactly the segment list of the first
    draw. *)
Theorem build_repeatable (settings : Settings) (bg : ThemeBG)
  (random random' : nat -> R) (st : AppState) :
  randomness settings = 0 ->
  (forall d x y len a th k k',
     fst (collect settings random x y len a d th k)
     = fst (collect settings random' x y len a d th k'))
  /\ (hasContext st ->
      segmentsRef (drawTreeOnce settings bg random
                     (drawTreeOnce settings bg random st))
      = segmentsRef (drawTreeOnce settings bg random st)).
Proof.
  intro H0. split; [now apply collect_ignores_random|].
  intros (canvas & ctx & Hc & Hx).
  destruct (drawTreeOnce_canvas settings bg random st canvas ctx Hc Hx)
    as (ctx' & Hc').
  assert (Hh : forall s, hasContext s ->
             segmentsRef (drawTreeOnce settings bg random s)
             = segmentsRef (buildSegments settings random s)).
  { intros s Hs. now apply drawTreeOnce_growIndex. }
  rewrite Hh by (exists (setContext canvas ctx'), ctx'; split;
                 [assumption|reflexivity]).
  rewrite Hh by (exists canvas, ctx; split; assumption).
  rewrite (buildSegments_segments settings random _
             (setContext canvas ctx') ctx' Hc' eq_refl).
  rewrite (buildSegments_segments settings random st canvas ctx Hc Hx).
  cbn [width height setContext].
  now apply collect_ignores_random.
Qed.

(** X20 for the default settings with randomness set to 0, on the canvas
    of the reference deployment. *)
Lemma build_repeatable_witness :
  let still :=
    {| depth := 11; angle := 25; length := 150; shrink := 67 / 100;
       thickness := 10; randomness := 0; leafMode := true;
       animateWind := true; windStrength := 4; windSpeed := 12 / 10;
       growAnimation := true; growSpeed := 80; preset := spring |} in
  let st := initialState (Some canvas1000x650) in
  segmentsRef (drawTreeOnce still night (fun _ => 1 / 2)
                 (drawTreeOnce still night (fun _ => 1 / 2) st))
  = segmentsRef (drawTreeOnce still night (fun _ => 1 / 2) st).
Proof.
  cbv zeta.
  destruct (build_repeatable
              {| depth := 11; angle := 25; length := 150;
                 shrink := 67 / 100; thickness := 10; randomness := 0;
                 leafMode := true; animateWind := true; windStrength := 4;
                 windSpeed := 12 / 10; growAnimation := true;
                 growSpeed := 80; preset := spring |}
              night (fun _ => 1 / 2) (fun _ => 1 / 2)
              (initialState (Some canvas1000x650)) eq_refl) as [_ H].
  apply H. exists canvas1000x650. eexists. split; reflexivity.
Defined.

(** X21.  The draw action bypasses the grow animation for good: in every
    frame that follows it, until the next rebuild, the counter stands at
    the length of the list and the whole tree is drawn. *)
Theorem frames_after_draw (settings : Settings) (bg : ThemeBG)
  (random : nat -> R) (st : AppState) (n : nat) :
  hasContext st ->
  let drawn := drawTreeOnce settings bg random st in
  let later := frames settings bg random n drawn in
  segmentsRef later = segmentsRef drawn
  /\ growIndexRef later = INR (List.length (segmentsRef drawn))
  /\ revealLimit settings (growIndexRef later) (segmentsRef later)
     = INR (List.length (segmentsRef drawn)).
Proof.
  intros Hc. cbv zeta.
  destruct Hc as (canvas & ctx & Hc & Hx).
  destruct (drawTreeOnce_canvas settings bg random st canvas ctx Hc Hx)
    as (ctx' & Hc').
  assert (Hd : hasContext (drawTreeOnce settings bg random st)).
  { exists (setContext canvas ctx'), ctx'. split; [assumption|reflexivity]. }
  destruct (drawTreeOnce_growIndex settings bg random st) as [_ Hg];
    [exists canvas, ctx; split; assumption|].
  assert (H : segmentsRef (frames settings bg random n
                             (drawTreeOnce settings bg random st))
              = segmentsRef (drawTreeOnce settings bg random st)
              /\ growIndexRef (frames settings bg random n
                                 (drawTreeOnce settings bg random st))
                 = INR (List.length
                          (segmentsRef
                             (drawTreeOnce settings bg random st)))).
  { induction n as [|n [IH1 IH2]]; [split; [reflexivity|exact Hg]|].
    rewrite frames_S.
    destruct (frames_invariant settings bg random _ Hd n) as [Hn _].
    split.
    - rewrite tick_segments. exact IH1.
    - rewrite tick_growIndex by assumption.
      rewrite IH1, IH2. apply advanceGrow_reached. lra. }
  destruct H as [H1 H2]. split; [exact H1|]. split; [exact H2|].
  rewrite H1, H2. unfold revealLimit. cbv zeta.
  destruct (growAnimation settings); [|reflexivity].
  rewrite clamp_whole, Nat.min_id. reflexivity.
Qed.

(** X21 for three frames after a draw at the default settings. *)
Lemma frames_after_draw_witness :
  let drawn := drawTreeOnce initialSettings night (fun _ => 0)
                 (initialState (Some canvas1000x650)) in
  growIndexRef (frames initialSettings night (fun _ => 0) 3 drawn)
  = INR (List.length (segmentsRef drawn)).
Proof.
  cbv zeta.
  apply (frames_after_draw initialSettings night (fun _ => 0)
           (initialState (Some canvas1000x650)) 3).
  exists canvas1000x650. eexists. split; reflexivity.
Defined.
